(** * Curriculens: chapter detection, chapter-scoped context, keywords,
      prompts, exports and the upload session, embedded from [src/app.py].

    Python's [str] is embedded as [list ascii]; a character is one of the
    code points U+0000..U+00FF (the Latin-1 slice of Unicode), on which the
    character classes of [re] and [str.lower]/[str.strip] are written out in
    full.  Python's unbounded [int] is [N].  A [dict] keyed by [int] is a
    [gmap N _]; a [Counter], whose iteration order matters, is an
    association list in insertion order. *)

From Stdlib Require Import Ascii String NArith DecimalString DecimalN.
From stdpp Require Import base list gmap strings sorting.

Local Open Scope N_scope.

Abbreviation str := (list ascii).

(** A Python string literal. *)
Definition py (s : string) : str := list_ascii_of_string s.

(** The newline character of the source's escapes, and the backslash. *)
Definition nl : ascii := ascii_of_N 10.
Definition backslash : ascii := ascii_of_N 92.

(** ** Characters: the predicates [re] and [str] use on Latin-1 *)

Module Char.

Definition code (c : ascii) : N := N_of_ascii c.

Definition between (lo hi : N) (c : ascii) : bool :=
  (lo <=? code c) && (code c <=? hi).

(** [str.isspace] / [\s]: TAB..CR, FS..US, SPACE, NEL, NBSP. *)
Definition is_space (c : ascii) : bool :=
  between 9 13 c || between 28 32 c || (code c =? 133) || (code c =? 160).

(** [\d] on a [str] pattern: the decimal digits; Latin-1 has only 0-9. *)
Definition is_digit (c : ascii) : bool := between 48 57 c.

(** Cased upper-case letters of Latin-1: A-Z and U+00C0..U+00DE but U+00D7. *)
Definition is_upper (c : ascii) : bool :=
  between 65 90 c || (between 192 222 c && negb (code c =? 215)).

(** [str.lower] on one character, also the folding of [re.IGNORECASE]. *)
Definition lower (c : ascii) : ascii :=
  if is_upper c then ascii_of_N (code c + 32) else c.

(** Alphabetic characters of Latin-1 ([str.isalpha]). *)
Definition is_alpha (c : ascii) : bool :=
  between 65 90 c || between 97 122 c
  || (code c =? 170) || (code c =? 181) || (code c =? 186)
  || between 192 214 c || between 216 246 c || between 248 255 c.

(** Digits and numerics beyond 0-9 that [str.isalnum] accepts:
    superscripts 2, 3, 1 and the vulgar fractions. *)
Definition is_numeric (c : ascii) : bool :=
  is_digit c || (code c =? 178) || (code c =? 179) || (code c =? 185)
  || between 188 190 c.

(** [\w] on a [str] pattern: alphanumeric or underscore. *)
Definition is_word (c : ascii) : bool :=
  is_alpha c || is_numeric c || (code c =? 95).

Definition eqb (a b : ascii) : bool := (code a =? code b).

End Char.

(** [str.lower()]. *)
Definition str_lower (s : str) : str := map Char.lower s.

(** [str.strip()]: drop leading and trailing whitespace. *)
Fixpoint lstrip (s : str) : str :=
  match s with
  | c :: s' => if Char.is_space c then lstrip s' else s
  | [] => []
  end.

Definition rstrip (s : str) : str := rev (lstrip (rev s)).

Definition strip (s : str) : str := rstrip (lstrip s).

(** [sep.join(parts)]. *)
Fixpoint join (sep : str) (parts : list str) : str :=
  match parts with
  | [] => []
  | [p] => p
  | p :: ps => p ++ sep ++ join sep ps
  end.

(** [text.split('\n')]: the pieces between newlines, always at least one. *)
Fixpoint split_nl (s : str) : list str :=
  match s with
  | [] => [[]]
  | c :: s' =>
      if Char.eqb c nl then [] :: split_nl s'
      else match split_nl s' with
           | l :: ls => (c :: l) :: ls
           | [] => [[c]]
           end
  end.

(** [int(s)] on a run of decimal digits, as [\d+] captures them. *)
Definition digit_val (c : ascii) : N := Char.code c - 48.

Definition py_int (s : str) : N :=
  fold_left (fun acc c => 10 * acc + digit_val c) s 0.

(** [str(n)] / [f"{n}"] for a non-negative integer. *)
Definition str_of_N (n : N) : str :=
  py (NilZero.string_of_uint (N.to_uint n)).

(** ** A backtracking matcher for the fragment of [re] the program uses *)

Module Re.

(** Character sets: [\s], [\d], [\w], [.], a listed character, a union
    such as [[\s:\-]] and a complement such as [[^\n]]. *)
Inductive cset :=
| CSpace
| CDigit
| CWord
| CAny
| COne (c : ascii)
| CUnion (a b : cset)
| CNot (a : cset).

Inductive regex :=
| Eps
| Chr (c : ascii)                (* a literal character *)
| Cls (cs : cset)                (* one character of a set *)
| Seq (a b : regex)
| Alt (a b : regex)              (* a|b, left first *)
| Plus (cs : cset)               (* cs+ , greedy *)
| LazyStar (cs : cset)           (* cs*? , lazy *)
| Group (n : nat) (a : regex)    (* the n-th capturing group *)
| Eos                            (* $ without MULTILINE *)
| WordB.                         (* \b *)

Record flags := { ignorecase : bool; dotall : bool }.

Definition no_flags : flags := {| ignorecase := false; dotall := false |}.
Definition IGNORECASE : flags := {| ignorecase := true; dotall := false |}.
Definition DOTALL_IGNORECASE : flags := {| ignorecase := true; dotall := true |}.

Fixpoint in_cset (fl : flags) (cs : cset) (c : ascii) : bool :=
  match cs with
  | CSpace => Char.is_space c
  | CDigit => Char.is_digit c
  | CWord => Char.is_word c
  | CAny => dotall fl || negb (Char.eqb c nl)
  | COne d =>
      if ignorecase fl then Char.eqb (Char.lower c) (Char.lower d)
      else Char.eqb c d
  | CUnion a b => in_cset fl a c || in_cset fl b c
  | CNot a => negb (in_cset fl a c)
  end.

Definition chr_match (fl : flags) (pat c : ascii) : bool :=
  if ignorecase fl then Char.eqb (Char.lower c) (Char.lower pat)
  else Char.eqb c pat.

(** The literal text [s] as a pattern: what [re.escape(s)] compiles to. *)
Fixpoint lits (s : str) : regex :=
  match s with
  | [] => Eps
  | c :: s' => Seq (Chr c) (lits s')
  end.

(** Captured groups, latest first. *)
Definition captures := list (nat * str).

Fixpoint group (n : nat) (cs : captures) : str :=
  match cs with
  | [] => []
  | (m, v) :: cs' => if Nat.eqb n m then v else group n cs'
  end.

(** A matcher state is the character before the cursor (for [\b]) and the
    text from the cursor on; a continuation receives the state after a
    sub-pattern and either completes the match or asks for backtracking. *)
Definition cont := option ascii -> str -> captures -> option (captures * str).

Definition is_word_opt (o : option ascii) : bool :=
  match o with Some c => Char.is_word c | None => false end.

(** [\b]: exactly one side of the cursor is a word character. *)
Definition at_boundary (prev : option ascii) (s : str) : bool :=
  xorb (is_word_opt prev) (is_word_opt (head s)).

(** [$]: at the end, or just before a newline that ends the text. *)
Definition at_eos (s : str) : bool :=
  match s with
  | [] => true
  | [c] => Char.eqb c nl
  | _ => false
  end.

(** Greedy repetition: take the longest run first, give back one
    character at a time while the continuation refuses. *)
Fixpoint star_greedy (p : ascii -> bool) (prev : option ascii) (s : str)
    (cs : captures) (k : cont) : option (captures * str) :=
  match s with
  | c :: s' =>
      if p c then
        match star_greedy p (Some c) s' cs k with
        | Some r => Some r
        | None => k prev s cs
        end
      else k prev s cs
  | [] => k prev s cs
  end.

Definition plus_greedy (p : ascii -> bool) (prev : option ascii) (s : str)
    (cs : captures) (k : cont) : option (captures * str) :=
  match s with
  | c :: s' => if p c then star_greedy p (Some c) s' cs k else None
  | [] => None
  end.

(** Lazy repetition: try the continuation first, then one more character. *)
Fixpoint star_lazy (p : ascii -> bool) (prev : option ascii) (s : str)
    (cs : captures) (k : cont) : option (captures * str) :=
  match k prev s cs with
  | Some r => Some r
  | None =>
      match s with
      | c :: s' => if p c then star_lazy p (Some c) s' cs k else None
      | [] => None
      end
  end.

Fixpoint exec (fl : flags) (r : regex) (prev : option ascii) (s : str)
    (cs : captures) (k : cont) : option (captures * str) :=
  match r with
  | Eps => k prev s cs
  | Chr c =>
      match s with
      | x :: s' => if chr_match fl c x then k (Some x) s' cs else None
      | [] => None
      end
  | Cls st =>
      match s with
      | x :: s' => if in_cset fl st x then k (Some x) s' cs else None
      | [] => None
      end
  | Seq a b => exec fl a prev s cs (fun p' s' cs' => exec fl b p' s' cs' k)
  | Alt a b =>
      match exec fl a prev s cs k with
      | Some res => Some res
      | None => exec fl b prev s cs k
      end
  | Plus st => plus_greedy (in_cset fl st) prev s cs k
  | LazyStar st => star_lazy (in_cset fl st) prev s cs k
  | Group n a =>
      exec fl a prev s cs
        (fun p' s' cs' => k p' s' ((n, take (length s - length s') s) :: cs'))
  | Eos => if at_eos s then k prev s cs else None
  | WordB => if at_boundary prev s then k prev s cs else None
  end.

(** One match attempt anchored at the cursor: the captures and the rest of
    the text after the match. *)
Definition match_at (fl : flags) (r : regex) (prev : option ascii) (s : str)
    : option (captures * str) :=
  exec fl r prev s [] (fun _ s' cs => Some (cs, s')).

(** [pattern.search(text)]: the leftmost position with a match. *)
Fixpoint search_from (fl : flags) (r : regex) (prev : option ascii) (s : str)
    : option (captures * str) :=
  match match_at fl r prev s with
  | Some res => Some res
  | None =>
      match s with
      | c :: s' => search_from fl r (Some c) s'
      | [] => None
      end
  end.

Definition search (fl : flags) (r : regex) (text : str) : option captures :=
  fst <$> search_from fl r None text.

(** Number of capturing groups of a pattern. *)
Fixpoint ngroups (r : regex) : nat :=
  match r with
  | Seq a b | Alt a b => ngroups a + ngroups b
  | Group _ a => S (ngroups a)
  | _ => 0%nat
  end.

(** What [re.findall] puts in its list: the whole match when the pattern
    has no group, the group when it has one, a tuple of the groups else. *)
Inductive item :=
| IStr (s : str)
| ITuple (l : list str).

Definition make_item (r : regex) (whole : str) (cs : captures) : item :=
  match ngroups r with
  | 0%nat => IStr whole
  | 1%nat => IStr (group 1 cs)
  | n => ITuple (map (fun i => group i cs) (seq 1 n))
  end.

(** [re.findall]: scan left to right; after a match the scan resumes at
    its end ([skip] counts the characters of the current match still to
    be passed), after a failure one character further.  None of the
    program's patterns matches the empty string; after an empty match the
    scan moves on by one character. *)
Fixpoint findall_go (fl : flags) (r : regex) (skip : nat)
    (prev : option ascii) (s : str) : list item :=
  match skip with
  | S n =>
      match s with
      | c :: s' => findall_go fl r n (Some c) s'
      | [] => []
      end
  | O =>
      match match_at fl r prev s with
      | Some (cs, s') =>
          let len := (length s - length s')%nat in
          make_item r (take len s) cs ::
          match s with
          | c :: s1 => findall_go fl r (len - 1) (Some c) s1
          | [] => []
          end
      | None =>
          match s with
          | c :: s1 => findall_go fl r 0 (Some c) s1
          | [] => []
          end
      end
  end.

Definition findall (fl : flags) (r : regex) (text : str) : list item :=
  findall_go fl r 0 None text.

End Re.

Import Re.

(** ** Chapter detection ([CHAPTER_PATTERNS], [extract_chapters]) *)

(** [[\s:\-]]. *)
Definition sep_set : cset := CUnion CSpace (CUnion (COne ":") (COne "-")).

(** [[^\n]]. *)
Definition not_nl : cset := CNot (COne nl).

(** [(?:WORD\s+(\d+)[\s:\-]+)([^\n]+)]. *)
Definition titled_pattern (word : string) : regex :=
  Seq (Seq (lits (py word))
        (Seq (Plus CSpace) (Seq (Group 1 (Plus CDigit)) (Plus sep_set))))
      (Group 2 (Plus not_nl)).

(** [(?:CHAPTER\s+(\d+))]. *)
Definition bare_pattern : regex :=
  Seq (lits (py "CHAPTER")) (Seq (Plus CSpace) (Group 1 (Plus CDigit))).

Definition CHAPTER_PATTERNS : list regex :=
  [ titled_pattern "Chapter";
    titled_pattern "CHAPTER";
    bare_pattern;
    titled_pattern "Section" ].

(** The body of the inner loop: what one match writes into [chapters]. *)
Definition record_match (chapters : gmap N str) (m : item) : gmap N str :=
  match m with
  | ITuple [num; name] => <[py_int num := strip name]> chapters
  | ITuple _ => chapters
  | IStr num => <[py_int num := py "Chapter " ++ num]> chapters
  end.

Definition extract_chapters (text : str) : gmap N str :=
  fold_left
    (fun chapters pattern =>
       fold_left record_match (findall IGNORECASE pattern text) chapters)
    CHAPTER_PATTERNS ∅.


(** ** Exceptions *)

Inductive exn :=
| KeyError
| ExtractionError
| GenerationError.

(** The result of a call that may raise. *)
Inductive outcome (A : Type) :=
| Ok (a : A)
| Raise (e : exn).

Arguments Ok {A} a.
Arguments Raise {A} e.

Definition bind {A B} (m : outcome A) (f : A -> outcome B) : outcome B :=
  match m with
  | Ok a => f a
  | Raise e => Raise e
  end.

Notation "'let*' x := m 'in' f" := (bind m (fun x => f))
  (at level 10, x name, f at level 200).

(** [d[k]] on a dict. *)
Definition getitem (d : gmap N str) (k : N) : outcome str :=
  match d !! k with
  | Some v => Ok v
  | None => Raise KeyError
  end.

(** [k in d]. *)
Definition contains (d : gmap N str) (k : N) : bool :=
  bool_decide (is_Some (d !! k)).

Definition str_eqb (a b : str) : bool := bool_decide (a = b).

(** ** Chapter-scoped context: the chat path and the Generate path *)

(** [selected_chapter] is [None] or an [int]; as a condition, [None] and
    [0] are false. *)
Definition truthy (selected_chapter : option N) : bool :=
  match selected_chapter with
  | Some n => negb (n =? 0)
  | None => false
  end.

(** [f"Chapter {n}: {title}"]. *)
Definition heading (n : N) (title : str) : str :=
  py "Chapter " ++ str_of_N n ++ py ": " ++ title.

(** [rf"{re.escape(chapter_title)}(.*?)(Chapter\s+\d+:|$)"] of
    [chatbot_response]: the heading, a lazy span, then the next
    "Chapter N:" or the end. *)
Definition chat_pattern (chapter_title : str) : regex :=
  Seq (lits chapter_title)
    (Seq (Group 1 (LazyStar CAny))
       (Group 2
          (Alt (Seq (lits (py "Chapter"))
                  (Seq (Plus CSpace) (Seq (Plus CDigit) (Chr ":"))))
               Eos))).

(** The same line in [main], where the raw string doubles the
    backslashes: [\\s+] is a backslash followed by one or more "s",
    [\\d+] a backslash followed by one or more "d". *)
Definition main_pattern (chapter_title : str) : regex :=
  Seq (lits chapter_title)
    (Seq (Group 1 (LazyStar CAny))
       (Group 2
          (Alt (Seq (lits (py "Chapter"))
                  (Seq (Chr backslash) (Seq (Plus (COne "s"))
                     (Seq (Chr backslash) (Seq (Plus (COne "d")) (Chr ":"))))))
               Eos))).

(** The search and the two branches on its result, shared by both paths. *)
Definition scoped_text (pattern : regex) (text : str) : str :=
  match search DOTALL_IGNORECASE pattern text with
  | Some m => strip (group 1 m)
  | None => text
  end.

(** Lines 78-91 of [chatbot_response]: the context before truncation. *)
Definition chat_context (extracted_text : str) (chapters : gmap N str)
    (content_type : str) (selected_chapter : option N) : outcome str :=
  match selected_chapter with
  | Some n =>
      if str_eqb content_type (py "Book") && truthy selected_chapter
         && contains chapters n
      then
        let* title := getitem chapters n in
        Ok (scoped_text (chat_pattern (heading n title)) extracted_text)
      else Ok extracted_text
  | None => Ok extracted_text
  end.

(** The prompt template of [chatbot_response]. *)
Definition chat_prompt (context user_input : str) : str :=
  py "You are an educational assistant. The user uploaded the following content:"
  ++ [nl; nl] ++ context ++ [nl; nl]
  ++ py "User question: " ++ user_input ++ [nl; nl]
  ++ py "Please provide a clear, concise and helpful answer based on the above content.".

(** What a selectbox of chapters returns: "All" or the option built from
    one key, [f"Chapter {num}: {name}"]; [main] reads the key back as the
    integer value of the option's second word without its colon. *)
Inductive choice :=
| All
| Pick (n : N).

Definition selected_of (c : choice) : option N :=
  match c with All => None | Pick n => Some n end.

(** Lines 195-208 of [main]: the text the Generate tasks work on. *)
Definition main_chapter_text (extracted_text : str) (chapters : gmap N str)
    (content_type : str) (chapter_choice : choice) : outcome str :=
  if str_eqb content_type (py "Book") && negb (bool_decide (chapters = ∅)) then
    match chapter_choice with
    | All => Ok extracted_text
    | Pick n =>
        let* title := getitem chapters n in
        Ok (scoped_text (main_pattern (heading n title)) extracted_text)
    end
  else Ok extracted_text.

(** ** Keyword extraction ([extract_keywords]) *)

(** [r'\b\w+\b']. *)
Definition word_pattern : regex := Seq WordB (Seq (Plus CWord) WordB).

(** The pattern has no group, so [findall] yields strings. *)
Definition item_str (i : item) : option str :=
  match i with
  | IStr s => Some s
  | ITuple _ => None
  end.

(** [Counter]: a count per distinct element, kept in the order in which
    the elements were first seen. *)
Module Counter.

Fixpoint add (w : str) (c : list (str * nat)) : list (str * nat) :=
  match c with
  | [] => [(w, 1%nat)]
  | (v, n) :: c' => if str_eqb v w then (v, S n) :: c' else (v, n) :: add w c'
  end.

Definition of_list (l : list str) : list (str * nat) :=
  fold_left (fun c w => add w c) l [].

(** One step of a stable sort by descending count: [x], which comes
    before every element of [l] in the input, goes in front of the first
    element whose count is not greater than its own. *)
Fixpoint insert_desc (x : str * nat) (l : list (str * nat)) : list (str * nat) :=
  match l with
  | [] => [x]
  | y :: l' =>
      if (snd x <? snd y)%nat then y :: insert_desc x l' else x :: y :: l'
  end.

(** [sorted(items, key=itemgetter(1), reverse=True)]. *)
Definition sorted_desc (l : list (str * nat)) : list (str * nat) :=
  foldr insert_desc [] l.

(** [most_common(n)], that is [heapq.nlargest(n, items, key=itemgetter(1))],
    which is [sorted(items, key=itemgetter(1), reverse=True)[:n]]. *)
Definition most_common (n : nat) (c : list (str * nat)) : list (str * nat) :=
  take n (sorted_desc c).

End Counter.

Section Keywords.

(** [stopwords.words('english')], the word list of the NLTK corpus. *)
Variable stopwords_english : list str.

Definition keep_word (w : str) : bool :=
  negb (bool_decide (w ∈ stopwords_english)) && (2 <? length w)%nat.

Definition extract_keywords (text : str) (num_keywords : nat) : list str :=
  let words := omap item_str (findall no_flags word_pattern (str_lower text)) in
  let filtered := filter (fun w => keep_word w = true) words in
  let most_common := Counter.most_common num_keywords (Counter.of_list filtered) in
  map fst most_common.

End Keywords.

(** ** Tasks and prompts (the Generate button of [main], [chatbot_response]) *)

Inductive task :=
| LessonPlan
| MCQs
| ShortQuestions
| Summarize
| ExtractKeywords.

(** [prompt_map]. *)
Definition prompt_map (t : task) : outcome str :=
  match t with
  | LessonPlan => Ok (py "Create a lesson plan for the following content:")
  | MCQs => Ok (py "Generate multiple choice questions for the following content:")
  | ShortQuestions => Ok (py "Generate short answer questions for the following content:")
  | _ => Raise KeyError
  end.

(** The prompt a task builds, if it builds one. *)
Definition task_prompt (t : task) (chapter_text : str) : option (outcome str) :=
  match t with
  | ExtractKeywords => None
  | Summarize =>
      Some (Ok (py "Summarize the following content:" ++ [nl; nl]
                ++ take 3000 chapter_text))
  | _ =>
      Some (let* prefix := prompt_map t in
            Ok (prefix ++ [nl; nl] ++ take 3000 chapter_text))
  end.

Section Generation.

Variable stopwords_english : list str.

(** [TextGenerator().generate_text], the generative backend. *)
Variable generate_text : str -> outcome str.

(** The body of the [try] under the Generate button: the result shown and
    logged. *)
Definition generate (t : task) (chapter_text : str) : outcome str :=
  match task_prompt t chapter_text with
  | None =>
      let keywords := extract_keywords stopwords_english chapter_text 10 in
      Ok (py "Keywords: " ++ join (py ", ") keywords)
  | Some p => let* prompt := p in generate_text prompt
  end.

Definition chatbot_response (user_input extracted_text : str)
    (chapters : gmap N str) (content_type : str)
    (selected_chapter : option N) : outcome str :=
  let* context :=
    chat_context extracted_text chapters content_type selected_chapter in
  let context := take 3000 context in
  generate_text (chat_prompt context user_input).

End Generation.

(** ** Document export ([export_to_pdf], [export_to_word]) *)

Record BytesIO := { buf_data : str; buf_pos : nat }.

Definition BytesIO_of (data : str) : BytesIO :=
  {| buf_data := data; buf_pos := 0 |}.

Definition BytesIO_empty : BytesIO := BytesIO_of [].

(** Writing at the cursor of an empty buffer leaves the cursor at the end. *)
Definition BytesIO_write (data : str) (b : BytesIO) : BytesIO :=
  {| buf_data := take (buf_pos b) (buf_data b) ++ data;
     buf_pos := (buf_pos b + length data)%nat |}.

Definition seek (n : nat) (b : BytesIO) : BytesIO :=
  {| buf_data := buf_data b; buf_pos := n |}.

(** An [FPDF] document as the calls it has received. *)
Record FPDF := {
  pdf_pages : nat;
  pdf_margin : option nat;
  pdf_font : option (str * nat);
  pdf_cells : list (nat * nat * str)
}.

Definition FPDF_new : FPDF :=
  {| pdf_pages := 0; pdf_margin := None; pdf_font := None; pdf_cells := [] |}.

Definition add_page (p : FPDF) : FPDF :=
  {| pdf_pages := S (pdf_pages p); pdf_margin := pdf_margin p;
     pdf_font := pdf_font p; pdf_cells := pdf_cells p |}.

Definition set_auto_page_break (margin : nat) (p : FPDF) : FPDF :=
  {| pdf_pages := pdf_pages p; pdf_margin := Some margin;
     pdf_font := pdf_font p; pdf_cells := pdf_cells p |}.

Definition set_font (family : str) (size : nat) (p : FPDF) : FPDF :=
  {| pdf_pages := pdf_pages p; pdf_margin := pdf_margin p;
     pdf_font := Some (family, size); pdf_cells := pdf_cells p |}.

Definition multi_cell (w h : nat) (txt : str) (p : FPDF) : FPDF :=
  {| pdf_pages := pdf_pages p; pdf_margin := pdf_margin p;
     pdf_font := pdf_font p; pdf_cells := pdf_cells p ++ [(w, h, txt)] |}.

(** A [python-docx] document as the paragraphs added to it. *)
Record Document := { doc_paragraphs : list str }.

Definition Document_new : Document := {| doc_paragraphs := [] |}.

Definition add_paragraph (text : str) (d : Document) : Document :=
  {| doc_paragraphs := doc_paragraphs d ++ [text] |}.

Section Exports.

(** The serialisers of the two libraries. *)
Variable FPDF_output : FPDF -> str.
Variable Document_bytes : Document -> str.

(** The document [export_to_pdf] has built when it asks for the output. *)
Definition export_to_pdf_document (text : str) : FPDF :=
  let pdf := FPDF_new in
  let pdf := add_page pdf in
  let pdf := set_auto_page_break 15 pdf in
  let pdf := set_font (py "Arial") 12 pdf in
  fold_left (fun pdf line => multi_cell 0 10 line pdf) (split_nl text) pdf.

(** On the characters of this embedding [.encode('latin1')] maps each
    character to the byte of its code. *)
Definition encode_latin1 (s : str) : str := s.

Definition export_to_pdf (text : str) : BytesIO :=
  let pdf := export_to_pdf_document text in
  let pdf_output := encode_latin1 (FPDF_output pdf) in
  let pdf_buffer := BytesIO_of pdf_output in
  seek 0 pdf_buffer.

(** The document [export_to_word] has built when it saves it. *)
Definition export_to_word_document (text : str) : Document :=
  let doc := Document_new in
  add_paragraph text doc.

Definition export_to_word (text : str) : BytesIO :=
  let doc := export_to_word_document text in
  let doc_buffer := BytesIO_empty in
  let doc_buffer := BytesIO_write (Document_bytes doc) doc_buffer in
  seek 0 doc_buffer.

End Exports.

(** ** The upload session ([main], one run of the script per interaction) *)

Record chat_entry := {
  entry_user : str;
  entry_bot : str;
  entry_chapter : option N
}.

(** [st.session_state]: the four keys [main] owns. *)
Record session := {
  extracted_text : option str;
  chapters : gmap N str;
  chat_history : list chat_entry;
  all_generated : list str
}.

(** The values [main] gives to the keys that are missing; also the state
    after "Reset Session", which deletes the four keys and reruns. *)
Definition initial_session : session :=
  {| extracted_text := None; chapters := ∅;
     chat_history := []; all_generated := [] |}.

Definition set_extracted_text (t : str) (s : session) : session :=
  {| extracted_text := Some t; chapters := chapters s;
     chat_history := chat_history s; all_generated := all_generated s |}.

Definition set_chapters (c : gmap N str) (s : session) : session :=
  {| extracted_text := extracted_text s; chapters := c;
     chat_history := chat_history s; all_generated := all_generated s |}.

Definition log_generated (r : str) (s : session) : session :=
  {| extracted_text := extracted_text s; chapters := chapters s;
     chat_history := chat_history s;
     all_generated := all_generated s ++ [r] |}.

Definition log_chat (e : chat_entry) (s : session) : session :=
  {| extracted_text := extracted_text s; chapters := chapters s;
     chat_history := chat_history s ++ [e];
     all_generated := all_generated s |}.

Definition MAX_CHARS : nat := 12000.

(** [s.endswith(suffix)]. *)
Definition endswith (suffix s : str) : bool :=
  str_eqb (drop (length s - length suffix) s) suffix
  && (length suffix <=? length s)%nat.

(** An uploaded file: its name and its bytes. *)
Record upload := { file_name : str; file_bytes : str }.

(** The widget values of one run of the script. *)
Record widgets := {
  reset_clicked : bool;
  content_type : str;
  uploaded_file : option upload;
  task_choice : task;
  chapter_choice : choice;
  generate_clicked : bool;
  chat_chapter : choice;
  user_input : str
}.

Section Main.

Variable stopwords_english : list str.
Variable generate_text : str -> outcome str.

(** [PyPDF2.PdfReader(file).pages] with each page's [extract_text()],
    which may be [None]; reading may raise. *)
Variable PdfReader_pages : str -> outcome (list (option str)).

(** [DOCXParser().extract_text]. *)
Variable DOCXParser_extract_text : str -> outcome str.

(** [PDFParser.extract_text] of [src/parsers/pdf_parser.py]. *)
Definition PDFParser_extract_text (pdf_file : str) : outcome str :=
  let* pages := PdfReader_pages pdf_file in
  Ok (fold_left (fun text page => text ++ default [] page) pages []).

(** How a run of [main] ends: at a [return] (or an uncaught exception)
    or at the end of the script. *)
Inductive run :=
| Returned (s : session)
| Finished (s : session).

Definition session_of (r : run) : session :=
  match r with Returned s | Finished s => s end.

(** The choice of a parser by the file's extension and its call; [None]
    is the "Unsupported file type" branch. *)
Definition parse_upload (f : upload) : option (outcome str) :=
  let name := str_lower (file_name f) in
  if endswith (py ".pdf") name then Some (PDFParser_extract_text (file_bytes f))
  else if endswith (py ".docx") name then Some (DOCXParser_extract_text (file_bytes f))
  else None.

(** The block under [if uploaded_file is not None]. *)
Definition handle_upload (content_type : str) (f : upload) (s : session) : run :=
  match parse_upload f with
  | None => Returned s
  | Some (Raise _) => Returned s
  | Some (Ok text) =>
      let text :=
        if (MAX_CHARS <? length text)%nat then take MAX_CHARS text else text in
      let s := set_extracted_text text s in
      if str_eqb content_type (py "Book") then
        let found := extract_chapters text in
        if bool_decide (found = ∅) then Finished s
        else Finished (set_chapters found s)
      else Finished s
  end.

(** The "Generate Content" column. *)
Definition handle_generate (w : widgets) (text : str) (s : session) : run :=
  match main_chapter_text text (chapters s) (content_type w) (chapter_choice w) with
  | Raise _ => Returned s
  | Ok chapter_text =>
      if generate_clicked w then
        match generate stopwords_english generate_text (task_choice w) chapter_text with
        | Ok result => Finished (log_generated result s)
        | Raise _ => Finished s
        end
      else Finished s
  end.

(** The chat column. *)
Definition handle_chat (w : widgets) (text : str) (s : session) : session :=
  let selected_chapter :=
    if str_eqb (content_type w) (py "Book")
       && negb (bool_decide (chapters s = ∅))
    then selected_of (chat_chapter w) else None in
  match user_input w with
  | [] => s
  | _ =>
      match chatbot_response generate_text (user_input w) text (chapters s)
              (content_type w) selected_chapter with
      | Ok response =>
          log_chat {| entry_user := user_input w; entry_bot := response;
                      entry_chapter := selected_chapter |} s
      | Raise _ => s
      end
  end.

(** One run of [main] on the current widget values. *)
Definition main (w : widgets) (s : session) : session :=
  let s := if reset_clicked w then initial_session else s in
  let after_upload :=
    match uploaded_file w with
    | Some f => handle_upload (content_type w) f s
    | None => Finished s
    end in
  match after_upload with
  | Returned s => s
  | Finished s =>
      match extracted_text s with
      | Some (c :: t) =>
          match handle_generate w (c :: t) s with
          | Returned s => s
          | Finished s => handle_chat w (c :: t) s
          end
      | _ => s
      end
  end.

(** The sessions a user can reach from a fresh one. *)
Inductive reachable : session -> Prop :=
| reach_init : reachable initial_session
| reach_step w s : reachable s -> reachable (main w s).

End Main.

(** ** Notions the statements below are written in *)


(** The character before the cursor once [m] has been passed. *)
Definition last_char (prev : option ascii) (m : str) : option ascii :=
  match last m with Some c => Some c | None => prev end.




(** The bound [main] puts on the session's text. *)
Definition text_bounded (s : session) : Prop :=
  forall t, extracted_text s = Some t -> (length t <= MAX_CHARS)%nat.




(** ** Keyword extraction in the specification's words *)

(** The longest prefix of word characters, and what follows it. *)
Fixpoint take_word (s : str) : str :=
  match s with
  | c :: s' => if Char.is_word c then c :: take_word s' else []
  | [] => []
  end.

Fixpoint drop_word (s : str) : str :=
  match s with
  | c :: s' => if Char.is_word c then drop_word s' else s
  | [] => []
  end.

(** The maximal runs of alphanumeric or underscore characters of a text,
    left to right; [cur] is the run being read, last character first. *)
Definition flush (cur : str) : list str :=
  match cur with
  | [] => []
  | _ => [rev cur]
  end.

Fixpoint word_runs_acc (cur : str) (s : str) : list str :=
  match s with
  | [] => flush cur
  | c :: s' =>
      if Char.is_word c then word_runs_acc (c :: cur) s'
      else flush cur ++ word_runs_acc [] s'
  end.

Definition word_runs (s : str) : list str := word_runs_acc [] s.

(** The tokens that count: runs of the lower-cased text that are not stop
    words and are longer than two characters. *)
Definition tokens (stop_words : list str) (text : str) : list str :=
  filter (fun w => (w ∉ stop_words) /\ (2 < length w)%nat)
    (word_runs (str_lower text)).

(** How often a token occurs, and where it occurs first. *)
Definition freq (w : str) (l : list str) : nat :=
  length (filter (fun v => v = w) l).

Fixpoint first_index (w : str) (l : list str) : nat :=
  match l with
  | [] => 0
  | v :: l' => if decide (v = w) then 0 else S (first_index w l')
  end.

(** [a] ranks before [b]: it is more frequent, or as frequent and first
    met earlier. *)
Definition ranks_before (l : list str) (a b : str) : Prop :=
  (freq b l < freq a l)%nat
  \/ (freq a l = freq b l /\ (first_index a l < first_index b l)%nat).

(** The same ranking on the entries of a counter. *)
Definition entry_before (l : list str) (x y : str * nat) : Prop :=
  (snd y < snd x)%nat
  \/ (snd x = snd y /\ (first_index (fst x) l < first_index (fst y) l)%nat).

(** The entry a counter of [l] holds for the key [v]. *)
Definition entry_of (l : list str) (v : str) : str * nat := (v, freq v l).

(** ** Sample inputs *)

(** The sample inputs of the specification's test list. *)
Definition two_chapters : str :=
  py "Chapter 3: Intro" ++ nl :: py "Chapter 4: Next".

Definition two_sections : str :=
  py "Chapter 1: A" ++ nl :: py "foo" ++ nl :: py "Chapter 2: B" ++ nl :: py "bar".

Definition two_sections_map : gmap N str :=
  <[1 := py "A"]> (<[2 := py "B"]> ∅).

(** A book whose first chapter is also announced as a section, so that
    the detected map keeps the title "A" for chapter 1. *)
Definition sectioned_book : str :=
  py "Section 1: A" ++ nl :: py "Chapter 1: A" ++ nl :: py "foo" ++ nl
  :: py "Chapter 2: B" ++ nl :: py "bar".


Definition two_lines : str := py "a" ++ nl :: py "b".

Definition cat_text : str := py "the cat sat on the mat the cat ran".

(** A small stop-word list for the sample sentence. *)
Definition sample_stop_words : list str := [py "the"; py "on"; py "a"].

(** A document of 12001 characters, uploaded as a PDF of one page. *)
Definition long_document : str := replicate 12001 "a"%char.

Definition long_upload : upload :=
  {| file_name := py "Book.PDF"; file_bytes := [] |}.

Definition long_reader (_ : str) : outcome (list (option str)) :=
  Ok [Some long_document].

Definition upload_only : widgets :=
  {| reset_clicked := false; content_type := py "Syllabus";
     uploaded_file := Some long_upload; task_choice := Summarize;
     chapter_choice := All; generate_clicked := false;
     chat_chapter := All; user_input := [] |}.

(** ** Sample sessions *)

(** A session that holds a short document, and a run that asks for its
    summary and puts a question. *)
Definition reading_session : session :=
  {| extracted_text := Some two_sections; chapters := two_sections_map;
     chat_history := []; all_generated := [py "earlier"] |}.

Definition ask_and_generate : widgets :=
  {| reset_clicked := false; content_type := py "Book";
     uploaded_file := None; task_choice := Summarize;
     chapter_choice := All; generate_clicked := true;
     chat_chapter := Pick 1; user_input := py "What is foo?" |}.

Definition reset_and_ask : widgets :=
  {| reset_clicked := true; content_type := py "Book";
     uploaded_file := None; task_choice := Summarize;
     chapter_choice := All; generate_clicked := true;
     chat_chapter := All; user_input := py "What is foo?" |}.

(** A generator that is down. *)
Definition failing_generator (_ : str) : outcome str := Raise GenerationError.

(** A book without any heading, uploaded over [reading_session]. *)
Definition plain_upload : upload :=
  {| file_name := py "notes.docx"; file_bytes := py "no headings here" |}.

Definition upload_plain_book : widgets :=
  {| reset_clicked := false; content_type := py "Book";
     uploaded_file := Some plain_upload; task_choice := Summarize;
     chapter_choice := All; generate_clicked := false;
     chat_chapter := All; user_input := [] |}.

(** An upload the script does not accept. *)
Definition image_upload : upload :=
  {| file_name := py "scan.png"; file_bytes := [] |}.

Definition upload_image : widgets :=
  {| reset_clicked := false; content_type := py "Book";
     uploaded_file := Some image_upload; task_choice := Summarize;
     chapter_choice := All; generate_clicked := true;
     chat_chapter := All; user_input := py "What is foo?" |}.

(** ** Sample texts for chapter detection *)


(** ** Chat transcripts ([chat_history_to_text], [chat_history_to_word]) *)

(** [f" (Chapter {entry['chapter']})" if entry['chapter'] else ""]. *)
Definition chapter_info (entry : chat_entry) : str :=
  match entry_chapter entry with
  | Some n =>
      if truthy (entry_chapter entry)
      then py " (Chapter " ++ str_of_N n ++ py ")"
      else []
  | None => []
  end.

(** [f"You{chapter_info}: {entry['user']}"] and
    [f"Curriculens: {entry['bot']}"]. *)
Definition you_line (entry : chat_entry) : str :=
  py "You" ++ chapter_info entry ++ py ": " ++ entry_user entry.

Definition bot_line (entry : chat_entry) : str :=
  py "Curriculens: " ++ entry_bot entry.

Definition chat_history_to_text (history : list chat_entry) : str :=
  let lines :=
    fold_left
      (fun lines entry =>
         let lines := lines ++ [you_line entry] in
         let lines := lines ++ [bot_line entry] in
         lines ++ [[]])
      (rev history) [] in
  join [nl] lines.

(** The document [chat_history_to_word] has built when it saves it. *)
Definition chat_history_to_word_document (history : list chat_entry) : Document :=
  fold_left
    (fun doc entry =>
       let doc := add_paragraph (you_line entry) doc in
       let doc := add_paragraph (bot_line entry) doc in
       add_paragraph [] doc)
    (rev history) Document_new.

Section Transcripts.

Variable Document_bytes : Document -> str.

Definition chat_history_to_word (history : list chat_entry) : BytesIO :=
  let doc := chat_history_to_word_document history in
  let buf := BytesIO_empty in
  let buf := BytesIO_write (Document_bytes doc) buf in
  seek 0 buf.

End Transcripts.

(** The three lines one entry contributes to a transcript. *)
Definition entry_lines (entry : chat_entry) : list str :=
  [you_line entry; bot_line entry; []].

(** ** The chapter number of a selectbox option *)

(** [s.split()]: the pieces between runs of whitespace; [cur] is the
    piece being read, last character first. *)
Fixpoint split_ws_acc (cur : str) (s : str) : list str :=
  match s with
  | [] => flush cur
  | c :: s' =>
      if Char.is_space c then flush cur ++ split_ws_acc [] s'
      else split_ws_acc (c :: cur) s'
  end.

Definition split_ws (s : str) : list str := split_ws_acc [] s.

(** [s.replace(":", "")]. *)
Definition remove_colons (s : str) : str :=
  filter (fun c => c <> ":"%char) s.

(** [int(s)], told for a non-empty run of decimal digits only; on any
    other string ([int] raises [ValueError], or accepts a sign or
    underscores) the result is [None]. *)
Definition int_of_digits (s : str) : option N :=
  match s with
  | [] => None
  | _ => if forallb Char.is_digit s then Some (py_int s) else None
  end.

(** [int(chapter_choice.split()[1].replace(":", ""))]; [None] when the
    option has no second word or the word is not a run of digits. *)
Definition selected_of_option (chapter_choice : str) : option N :=
  match split_ws chapter_choice !! 1%nat with
  | Some word => int_of_digits (remove_colons word)
  | None => None
  end.

(** ** Excerpts *)

(** [v] is a contiguous part of [s]. *)
Definition excerpt_of (v s : str) : Prop := exists a b, s = a ++ v ++ b.

(** Every capture of [cs'] was already in [cs] or is an excerpt of [s]. *)
Definition captures_from (s : str) (cs cs' : captures) : Prop :=
  forall n v, (n, v) ∈ cs' -> (n, v) ∈ cs \/ excerpt_of v s.



(** ** A PDF of three pages, the second without text *)

Definition three_pages (_ : str) : outcome (list (option str)) :=
  Ok [Some (py "Chapter 1: A"); None; Some (py " and more")].

Definition upload_three_pages : widgets :=
  {| reset_clicked := false; content_type := py "Syllabus";
     uploaded_file := Some long_upload; task_choice := Summarize;
     chapter_choice := All; generate_clicked := false;
     chat_chapter := All; user_input := [] |}.

(** * Properties *)

(** ** Characters and strings *)

Lemma char_eqb_eq (a b : ascii) : Char.eqb a b = true <-> a = b.
Proof.
  unfold Char.eqb, Char.code. rewrite N.eqb_eq. split; [|congruence].
  intros H. rewrite <- (ascii_N_embedding a), <- (ascii_N_embedding b).
  congruence.
Qed.

Lemma str_eqb_eq (a b : str) : str_eqb a b = true <-> a = b.
Proof. unfold str_eqb. apply bool_decide_eq_true. Qed.

Lemma str_eqb_refl (a : str) : str_eqb a a = true.
Proof. by apply str_eqb_eq. Qed.

(** ** The matcher: what a successful attempt has consumed *)

Lemma star_greedy_inv p prev s cs k res :
  star_greedy p prev s cs k = Some res ->
  exists m s' p' , s = m ++ s' /\ Forall (fun x => p x = true) m
                   /\ k p' s' cs = Some res.
Proof.
  revert prev. induction s as [|c s IH]; intros prev; simpl.
  - intros H. exists [], [], prev. auto.
  - destruct (p c) eqn:Hp.
    + destruct (star_greedy p (Some c) s cs k) eqn:Hs.
      * intros [= <-]. destruct (IH _ Hs) as (m & s' & p' & -> & Hm & Hk).
        exists (c :: m), s', p'. auto.
      * intros H. exists [], (c :: s), prev. auto.
    + intros H. exists [], (c :: s), prev. auto.
Qed.

Lemma star_lazy_inv p prev s cs k res :
  star_lazy p prev s cs k = Some res ->
  exists m s' p', s = m ++ s' /\ Forall (fun x => p x = true) m
                  /\ k p' s' cs = Some res.
Proof.
  revert prev. induction s as [|c s IH]; intros prev; simpl.
  - destruct (k prev [] cs) eqn:Hk; [|done].
    intros [= <-]. exists [], [], prev. auto.
  - destruct (k prev (c :: s) cs) eqn:Hk.
    + intros [= <-]. exists [], (c :: s), prev. auto.
    + destruct (p c) eqn:Hp; [|done]. intros Hs.
      destruct (IH _ Hs) as (m & s' & p' & -> & Hm & Hk').
      exists (c :: m), s', p'. auto.
Qed.






(** ** [findall]: the equations of the scan *)

Lemma last_char_cons prev c m : last_char prev (c :: m) = last_char (Some c) m.
Proof. unfold last_char. rewrite last_cons. by destruct (last m). Qed.

Lemma findall_go_skip fl r m : forall prev s,
  findall_go fl r (length m) prev (m ++ s) = findall_go fl r 0 (last_char prev m) s.
Proof.
  induction m as [|c m IH]; intros prev s.
  - done.
  - cbn [length app findall_go]. by rewrite IH, last_char_cons.
Qed.

(** After a non-empty match the scan resumes right behind it. *)
Lemma findall_go_match fl r prev m s' cs :
  m <> [] ->
  match_at fl r prev (m ++ s') = Some (cs, s') ->
  findall_go fl r 0 prev (m ++ s')
  = make_item r m cs :: findall_go fl r 0 (last_char prev m) s'.
Proof.
  intros Hm H. destruct m as [|c m]; [done|].
  cbn [findall_go app]. cbn [app] in H. rewrite H.
  replace (length (c :: m ++ s') - length s')%nat with (S (length m))
    by (cbn [length]; rewrite length_app; lia).
  cbn [take]. rewrite take_app_length. f_equal.
  replace (S (length m) - 1)%nat with (length m) by lia.
  by rewrite findall_go_skip, last_char_cons.
Qed.

Lemma findall_go_nomatch fl r prev c s :
  match_at fl r prev (c :: s) = None ->
  findall_go fl r 0 prev (c :: s) = findall_go fl r 0 (Some c) s.
Proof. intros H. cbn [findall_go]. by rewrite H. Qed.


(** ** Chapter detection on the specification's sample *)

(** C1. On the text made of the two lines "Chapter 3: Intro" and
    "Chapter 4: Next" the first pattern finds the titles "Intro" and
    "Next", but the bare pattern, which ignores case as well, matches the
    same two headings afterwards and overwrites both titles: the map
    returned is {3: "Chapter 3", 4: "Chapter 4"}, not {3: "Intro",
    4: "Next"}. *)
Theorem extract_chapters_two_chapters :
  findall IGNORECASE (titled_pattern "Chapter") two_chapters
    = [ITuple [py "3"; py "Intro"]; ITuple [py "4"; py "Next"]]
  /\ findall IGNORECASE bare_pattern two_chapters = [IStr (py "3"); IStr (py "4")]
  /\ extract_chapters two_chapters
     = <[3 := py "Chapter 3"]> (<[4 := py "Chapter 4"]> ∅)
  /\ extract_chapters two_chapters !! 3 <> Some (py "Intro")
  /\ extract_chapters two_chapters !! 4 <> Some (py "Next").
Proof.
  repeat split; try (vm_compute; reflexivity); vm_compute; discriminate.
Qed.

(** ** The chapter-scoped selector on the specification's sample *)

(** C2. On "Chapter 1: A\nfoo\nChapter 2: B\nbar" with chapter 1 and the
    map {1: "A", 2: "B"} the chat path returns "foo", while the
    Generate path of [main], whose pattern has doubled backslashes, never
    sees the next heading and returns everything up to the end of the
    text.  The two paths differ in the same way on a book and the map
    detected from it. *)
Theorem scoped_text_two_sections :
  chat_context two_sections two_sections_map (py "Book") (Some 1) = Ok (py "foo")
  /\ main_chapter_text two_sections two_sections_map (py "Book") (Pick 1)
     = Ok (py "foo" ++ nl :: py "Chapter 2: B" ++ nl :: py "bar")
  /\ main_chapter_text two_sections two_sections_map (py "Book") (Pick 1)
     <> Ok (py "foo")
  /\ extract_chapters sectioned_book
     = <[1 := py "A"]> (<[2 := py "Chapter 2"]> ∅)
  /\ chat_context sectioned_book (extract_chapters sectioned_book) (py "Book")
       (Some 1) = Ok (py "foo")
  /\ main_chapter_text sectioned_book (extract_chapters sectioned_book)
       (py "Book") (Pick 1)
     = Ok (py "foo" ++ nl :: py "Chapter 2: B" ++ nl :: py "bar").
Proof.
  repeat split; try (vm_compute; reflexivity); vm_compute; discriminate.
Qed.

(** ** The fallback to the full text *)









(** ** The chat path never looks up a missing chapter *)

Lemma chat_context_total text chapters content_type selected_chapter :
  exists c, chat_context text chapters content_type selected_chapter = Ok c.
Proof.
  unfold chat_context. destruct selected_chapter as [n|]; [|by eexists].
  destruct (_ && _ && contains chapters n) eqn:Hc; [|by eexists].
  apply andb_true_iff in Hc as [_ Hc].
  apply bool_decide_eq_true in Hc as [title Hc].
  unfold getitem. rewrite Hc. by eexists.
Qed.

(** C10. When the content type is not "Book", or no chapter is selected
    ([None] or [0]), or the selected number is not a key of the chapter
    map, the context is the full extracted text, cut to 3000 characters in
    the prompt; and since the map is indexed only after the membership
    test, no call raises a key-lookup error. *)
Theorem chat_context_guarded (generate_text : str -> outcome str)
    (user_input text : str) (chapters : gmap N str) (content_type : str)
    (selected_chapter : option N) :
  content_type <> py "Book" \/ truthy selected_chapter = false
    \/ (forall n, selected_chapter = Some n -> chapters !! n = None) ->
  chat_context text chapters content_type selected_chapter = Ok text
  /\ chatbot_response generate_text user_input text chapters content_type
       selected_chapter
     = generate_text (chat_prompt (take 3000 text) user_input)
  /\ forall text' chapters' content_type' selected_chapter',
       chat_context text' chapters' content_type' selected_chapter'
       <> Raise KeyError.
Proof.
  intros H.
  assert (chat_context text chapters content_type selected_chapter = Ok text)
    as Hctx.
  { unfold chat_context. destruct selected_chapter as [n|]; [|done].
    destruct (_ && _ && _) eqn:Hc; [|done].
    apply andb_true_iff in Hc as [[Hb Ht]%andb_true_iff Hc].
    apply str_eqb_eq in Hb. apply bool_decide_eq_true in Hc as [title Hc].
    destruct H as [H|[H|H]]; [done|congruence|].
    rewrite (H n eq_refl) in Hc. done. }
  split; [done|]. split.
  - unfold chatbot_response. by rewrite Hctx.
  - intros text' chapters' ct' sel'.
    destruct (chat_context_total text' chapters' ct' sel') as [c ->]. done.
Qed.

Lemma chat_context_guarded_witness :
  chat_context two_sections two_sections_map (py "Book") (Some 7) = Ok two_sections
  /\ chatbot_response Ok (py "What is foo?") two_sections two_sections_map
       (py "Book") (Some 7)
     = Ok (chat_prompt (take 3000 two_sections) (py "What is foo?"))
  /\ forall text' chapters' content_type' selected_chapter',
       chat_context text' chapters' content_type' selected_chapter'
       <> Raise KeyError.
Proof.
  apply (chat_context_guarded Ok (py "What is foo?") two_sections
           two_sections_map (py "Book") (Some 7)).
  right. right. intros n [= <-]. vm_compute. reflexivity.
Defined.

(** ** Prompts embed the first 3000 characters of the context *)

(** C4. Each generating task hands the generator its fixed prefix, a
    blank line and the first 3000 characters of the context and nothing
    after them; the chat prompt embeds the first 3000 characters of its
    context between its fixed opening and the user's question; the
    embedded part is a prefix of the context of length min(3000, length),
    so the whole context when it is shorter.  The keyword task builds no
    prompt. *)
Theorem prompts_embed_truncated_context (stopwords_english : list str)
    (generate_text : str -> outcome str) (context user_input text : str)
    (chapters : gmap N str) (content_type : str) (selected_chapter : option N) :
  generate stopwords_english generate_text LessonPlan context
    = generate_text (py "Create a lesson plan for the following content:"
                     ++ [nl; nl] ++ take 3000 context)
  /\ generate stopwords_english generate_text MCQs context
    = generate_text (py "Generate multiple choice questions for the following content:"
                     ++ [nl; nl] ++ take 3000 context)
  /\ generate stopwords_english generate_text ShortQuestions context
    = generate_text (py "Generate short answer questions for the following content:"
                     ++ [nl; nl] ++ take 3000 context)
  /\ generate stopwords_english generate_text Summarize context
    = generate_text (py "Summarize the following content:"
                     ++ [nl; nl] ++ take 3000 context)
  /\ task_prompt ExtractKeywords context = None
  /\ (exists c,
        chat_context text chapters content_type selected_chapter = Ok c
        /\ chatbot_response generate_text user_input text chapters content_type
             selected_chapter
           = generate_text
               (py "You are an educational assistant. The user uploaded the following content:"
                ++ [nl; nl] ++ take 3000 c ++ [nl; nl]
                ++ py "User question: " ++ user_input ++ [nl; nl]
                ++ py "Please provide a clear, concise and helpful answer based on the above content."))
  /\ take 3000 context ++ drop 3000 context = context
  /\ length (take 3000 context) = Nat.min 3000 (length context).
Proof.
  repeat split; try reflexivity.
  - destruct (chat_context_total text chapters content_type selected_chapter)
      as [c Hc].
    exists c. split; [done|]. unfold chatbot_response. by rewrite Hc.
  - apply take_drop.
  - apply length_take.
Qed.

(** ** Document export *)

Lemma multi_cell_fold (lines : list str) : forall pdf,
  map snd (pdf_cells (fold_left (fun pdf line => multi_cell 0 10 line pdf) lines pdf))
  = map snd (pdf_cells pdf) ++ lines.
Proof.
  induction lines as [|l lines IH]; intros pdf; simpl.
  - by rewrite app_nil_r.
  - rewrite IH. simpl. rewrite map_app. simpl. by rewrite <- app_assoc.
Qed.

(** C6, as the claim states it for the Word export, fails: a text of two
    lines becomes one paragraph, not one paragraph per line. *)
Lemma export_to_word_not_split :
  doc_paragraphs (export_to_word_document two_lines) <> split_nl two_lines.
Proof. vm_compute. discriminate. Qed.

(** C6, amended. [export_to_pdf] writes one cell per line of the text
    split on newlines and [export_to_word] adds the whole text as a
    single paragraph; each returns an in-memory buffer that holds the
    library's serialisation of that document, positioned at offset
    zero. *)
Theorem exports_lines_and_offset (FPDF_output : FPDF -> str)
    (Document_bytes : Document -> str) (text : str) :
  map snd (pdf_cells (export_to_pdf_document text)) = split_nl text
  /\ export_to_pdf FPDF_output text
     = {| buf_data := FPDF_output (export_to_pdf_document text); buf_pos := 0 |}
  /\ doc_paragraphs (export_to_word_document text) = [text]
  /\ export_to_word Document_bytes text
     = {| buf_data := Document_bytes (export_to_word_document text); buf_pos := 0 |}.
Proof.
  repeat split. unfold export_to_pdf_document. by rewrite multi_cell_fold.
Qed.

(** ** The bound on the session's text *)

Section MainProperties.

Variable stopwords_english : list str.
Variable generate_text : str -> outcome str.
Variable PdfReader_pages : str -> outcome (list (option str)).
Variable DOCXParser_extract_text : str -> outcome str.

Local Abbreviation parse := (parse_upload PdfReader_pages DOCXParser_extract_text).
Local Abbreviation upload_step :=
  (handle_upload PdfReader_pages DOCXParser_extract_text).
Local Abbreviation run_main :=
  (main stopwords_english generate_text PdfReader_pages DOCXParser_extract_text).

Lemma handle_upload_text content_type f s :
  extracted_text (session_of (upload_step content_type f s))
  = match parse f with
    | Some (Ok t) =>
        Some (if (MAX_CHARS <? length t)%nat then take MAX_CHARS t else t)
    | _ => extracted_text s
    end.
Proof.
  unfold handle_upload.
  destruct (parse_upload _ _ f) as [[t|e]|]; [|done|done].
  destruct (str_eqb content_type _); [|done].
  by destruct (bool_decide _).
Qed.

Lemma handle_upload_returned content_type f s s' :
  upload_step content_type f s = Returned s' -> s' = s.
Proof.
  unfold handle_upload.
  destruct (parse_upload _ _ f) as [[t|e]|]; [|congruence|congruence].
  destruct (str_eqb content_type _); [|done].
  by destruct (bool_decide _).
Qed.

Lemma handle_generate_text w t s :
  extracted_text (session_of (handle_generate stopwords_english generate_text w t s))
  = extracted_text s.
Proof.
  unfold handle_generate. destruct (main_chapter_text _ _ _ _); [|done].
  destruct (generate_clicked w); [|done]. by destruct (generate _ _ _ _).
Qed.

Lemma handle_chat_text w t s :
  extracted_text (handle_chat generate_text w t s) = extracted_text s.
Proof.
  unfold handle_chat. destruct (user_input w); [done|].
  by destruct (chatbot_response _ _ _ _ _ _).
Qed.

(** What one run leaves in [extracted_text]: the outcome of the upload
    block; the two columns below it only read the text. *)
Lemma main_text w s :
  extracted_text (run_main w s)
  = let s0 := if reset_clicked w then initial_session else s in
    match uploaded_file w with
    | Some f => extracted_text (session_of (upload_step (content_type w) f s0))
    | None => extracted_text s0
    end.
Proof.
  unfold main. cbv zeta.
  set (s0 := if reset_clicked w then initial_session else s).
  assert (forall s1, extracted_text
            match extracted_text s1 with
            | Some (c :: t) =>
                match handle_generate stopwords_english generate_text w (c :: t) s1 with
                | Returned s2 => s2
                | Finished s2 => handle_chat generate_text w (c :: t) s2
                end
            | _ => s1
            end = extracted_text s1) as Htail.
  { intros s1. destruct (extracted_text s1) as [[|c t]|] eqn:E; try done.
    pose proof (handle_generate_text w (c :: t) s1) as Hg.
    destruct (handle_generate _ _ w (c :: t) s1) as [s2|s2]; simpl in Hg.
    - congruence.
    - rewrite handle_chat_text. congruence. }
  destruct (uploaded_file w) as [f|]; [|apply Htail].
  destruct (upload_step (content_type w) f s0) as [s1|s1]; [done|apply Htail].
Qed.

Lemma main_bounded w s : text_bounded s -> text_bounded (run_main w s).
Proof.
  intros Hs t. rewrite main_text. cbv zeta.
  assert (text_bounded (if reset_clicked w then initial_session else s)) as H0.
  { destruct (reset_clicked w); [|done]. intros t' [=]. }
  destruct (uploaded_file w) as [f|]; [|apply H0].
  rewrite handle_upload_text. destruct (parse f) as [[t'|e]|]; [|apply H0..].
  intros [= <-]. destruct (MAX_CHARS <? length t')%nat eqn:E.
  - rewrite length_take. lia.
  - apply Nat.ltb_ge in E. done.
Qed.

Lemma reachable_bounded s :
  reachable stopwords_english generate_text PdfReader_pages
    DOCXParser_extract_text s ->
  text_bounded s.
Proof.
  induction 1 as [|w s _ IH]; [by intros t [=]|]. by apply main_bounded.
Qed.

End MainProperties.

(** C9. When the parser's output for an uploaded document is longer than
    12000 characters, the run stores exactly its first 12000 characters
    in the session; the session's text is never longer than 12000
    characters in any reachable session, every run of [main] (chapter
    detection, generation, chat, reset) preserving the bound. *)
Theorem extracted_text_truncated (stopwords_english : list str)
    (generate_text : str -> outcome str)
    (PdfReader_pages : str -> outcome (list (option str)))
    (DOCXParser_extract_text : str -> outcome str)
    (w : widgets) (s : session) (f : upload) (t : str) :
  uploaded_file w = Some f ->
  parse_upload PdfReader_pages DOCXParser_extract_text f = Some (Ok t) ->
  (MAX_CHARS < length t)%nat ->
  extracted_text
    (main stopwords_english generate_text PdfReader_pages
       DOCXParser_extract_text w s) = Some (take MAX_CHARS t)
  /\ (forall s',
        reachable stopwords_english generate_text PdfReader_pages
          DOCXParser_extract_text s' -> text_bounded s')
  /\ (forall w' s',
        text_bounded s' ->
        text_bounded
          (main stopwords_english generate_text PdfReader_pages
             DOCXParser_extract_text w' s')).
Proof.
  intros Hf Hp Hlen. split; [|split].
  - rewrite main_text. cbv zeta. rewrite Hf, handle_upload_text, Hp.
    apply Nat.ltb_lt in Hlen. by rewrite Hlen.
  - apply reachable_bounded.
  - intros w' s'. apply main_bounded.
Qed.

Lemma extracted_text_truncated_witness :
  extracted_text (main [] Ok long_reader Ok upload_only initial_session)
    = Some (take MAX_CHARS long_document)
  /\ (forall s', reachable [] Ok long_reader Ok s' -> text_bounded s')
  /\ (forall w' s',
        text_bounded s' -> text_bounded (main [] Ok long_reader Ok w' s')).
Proof.
  apply (extracted_text_truncated [] Ok long_reader Ok upload_only
           initial_session long_upload long_document).
  - reflexivity.
  - vm_compute. reflexivity.
  - apply Nat.ltb_lt. vm_compute. reflexivity.
Defined.

(** ** The matcher on runs and literals *)


(** A greedy run that the continuation accepts at its longest is taken
    whole. *)
Lemma star_greedy_max p run : forall prev rest cs k r,
  Forall (fun x => p x = true) run ->
  (forall c, head rest = Some c -> p c = false) ->
  k (last_char prev run) rest cs = Some r ->
  star_greedy p prev (run ++ rest) cs k = Some r.
Proof.
  induction run as [|x run IH]; intros prev rest cs k r Hrun Hstop Hk.
  - cbn [app]. destruct rest as [|c rest]; [done|].
    cbn [star_greedy]. by rewrite (Hstop c eq_refl).
  - apply Forall_cons in Hrun as [Hx Hrun]. cbn [app star_greedy].
    rewrite Hx, (IH (Some x) rest cs k r); try done.
    by rewrite <- last_char_cons with (prev := prev).
Qed.

Lemma plus_greedy_max p x run prev rest cs k r :
  Forall (fun x => p x = true) (x :: run) ->
  (forall c, head rest = Some c -> p c = false) ->
  k (last_char prev (x :: run)) rest cs = Some r ->
  plus_greedy p prev ((x :: run) ++ rest) cs k = Some r.
Proof.
  intros [Hx Hrun]%Forall_cons Hstop Hk. cbn [app plus_greedy]. rewrite Hx.
  apply star_greedy_max; try done. by rewrite <- last_char_cons with (prev := prev).
Qed.

(** ** A bare "CHAPTER 2" is always found *)















(** ** Tokens are the maximal runs of word characters *)

Lemma take_drop_word s : take_word s ++ drop_word s = s.
Proof.
  induction s as [|c s IH]; [done|]. simpl.
  destruct (Char.is_word c); [|done]. simpl. by rewrite IH.
Qed.

Lemma take_word_all s : Forall (fun x => Char.is_word x = true) (take_word s).
Proof.
  induction s as [|c s IH]; simpl; [constructor|].
  destruct (Char.is_word c) eqn:E; by constructor.
Qed.

Lemma drop_word_stop s c : head (drop_word s) = Some c -> Char.is_word c = false.
Proof.
  induction s as [|x s IH]; simpl; [done|].
  destruct (Char.is_word x) eqn:E; [done|]. simpl. by intros [= <-].
Qed.

Lemma drop_word_length s : (length (drop_word s) <= length s)%nat.
Proof.
  induction s as [|x s IH]; simpl; [done|].
  destruct (Char.is_word x); simpl; lia.
Qed.

Lemma drop_word_id s : is_word_opt (head s) = false -> drop_word s = s.
Proof. destruct s as [|c s]; simpl; [done|]. by intros ->. Qed.

Lemma word_runs_acc_run s : forall cur,
  word_runs_acc cur s
  = flush (rev (take_word s) ++ cur) ++ word_runs (drop_word s).
Proof.
  unfold word_runs. induction s as [|c s IH]; intros cur; simpl.
  - by rewrite app_nil_r.
  - destruct (Char.is_word c) eqn:E; simpl.
    + rewrite IH. by rewrite <- app_assoc.
    + by rewrite E.
Qed.

Lemma word_runs_start c s :
  Char.is_word c = true ->
  word_runs (c :: s) = take_word (c :: s) :: word_runs (drop_word (c :: s)).
Proof.
  intros E. unfold word_runs at 1. rewrite word_runs_acc_run.
  rewrite app_nil_r. simpl. rewrite E. simpl.
  assert (forall l : str, l <> [] -> flush l = [rev l]) as Hf
    by (by intros [|??]).
  rewrite Hf by (by intros [_ [=]]%app_eq_nil).
  by rewrite rev_app_distr, rev_involutive.
Qed.

Lemma word_runs_skip c s :
  Char.is_word c = false -> word_runs (c :: s) = word_runs s.
Proof. intros E. unfold word_runs. simpl. by rewrite E. Qed.

Lemma last_char_word prev c run :
  Forall (fun x => Char.is_word x = true) (c :: run) ->
  is_word_opt (last_char prev (c :: run)) = true.
Proof.
  intros H. unfold last_char. destruct (last (c :: run)) as [x|] eqn:E.
  - apply last_Some_elem_of in E. rewrite Forall_forall in H. by apply H.
  - by apply last_None in E.
Qed.

Lemma word_match prev c s :
  is_word_opt prev = false -> Char.is_word c = true ->
  match_at no_flags word_pattern prev (take_word (c :: s) ++ drop_word (c :: s))
  = Some ([], drop_word (c :: s)).
Proof.
  intros Hp Hc. unfold match_at, word_pattern. cbn [exec].
  rewrite take_drop_word. unfold at_boundary. rewrite Hp. cbn [head is_word_opt].
  rewrite Hc. cbn [xorb]. rewrite <- (take_drop_word (c :: s)) at 1.
  pose proof (take_word_all (c :: s)) as Hall.
  cbn [take_word] in *. rewrite Hc in *.
  apply plus_greedy_max; [done|apply drop_word_stop|].
  rewrite last_char_word by done.
  destruct (head (drop_word (c :: s))) as [d|] eqn:Hd; [|done].
  apply drop_word_stop in Hd. cbn [is_word_opt]. by rewrite Hd.
Qed.

Lemma word_nomatch_inside prev s :
  is_word_opt prev = true -> is_word_opt (head s) = true ->
  match_at no_flags word_pattern prev s = None.
Proof.
  intros Hp Hs. unfold match_at, word_pattern. cbn [exec].
  unfold at_boundary. by rewrite Hp, Hs.
Qed.

Lemma word_nomatch_gap prev s :
  is_word_opt (head s) = false ->
  match_at no_flags word_pattern prev s = None.
Proof.
  intros Hs. unfold match_at, word_pattern. cbn [exec].
  destruct (at_boundary prev s); [|done].
  destruct s as [|c s]; [done|]. simpl in Hs. cbn [plus_greedy in_cset].
  by rewrite Hs.
Qed.

Lemma findall_words : forall n s prev, length s = n ->
  findall_go no_flags word_pattern 0 prev s
  = map IStr (word_runs (if is_word_opt prev then drop_word s else s)).
Proof.
  induction n as [n IH] using lt_wf_ind. intros s prev Hn.
  destruct s as [|c s].
  - cbn [findall_go]. rewrite word_nomatch_gap by done. by destruct (is_word_opt prev).
  - destruct (Char.is_word c) eqn:Hc.
    + destruct (is_word_opt prev) eqn:Hp.
      * rewrite findall_go_nomatch by by apply word_nomatch_inside.
        rewrite (IH (length s)); [|simpl in Hn; lia|done].
        cbn [is_word_opt drop_word]. by rewrite Hc.
      * pose proof (word_match prev c s Hp Hc) as Hm.
        rewrite word_runs_start by done.
        rewrite <- (take_drop_word (c :: s)) at 1.
        pose proof (take_word_all (c :: s)) as Hall.
        cbn [take_word] in *. rewrite Hc in *.
        rewrite (findall_go_match no_flags word_pattern prev (c :: take_word s) _ []);
          [|done|exact Hm].
        cbn [map]. f_equal.
        rewrite (IH (length (drop_word (c :: s)))); [|
          pose proof (drop_word_length s); simpl in *; rewrite Hc; lia|done].
        rewrite last_char_word by done.
        f_equal. f_equal. apply drop_word_id.
        destruct (head (drop_word (c :: s))) as [d|] eqn:Hd; [|done].
        apply drop_word_stop in Hd. done.
    + rewrite findall_go_nomatch by (apply word_nomatch_gap; simpl; by rewrite Hc).
      rewrite (IH (length s)); [|simpl in Hn; lia|done].
      cbn [is_word_opt]. rewrite Hc. cbn [drop_word]. rewrite Hc.
      by destruct (is_word_opt prev); rewrite word_runs_skip.
Qed.

Lemma omap_item_str l : omap item_str (map IStr l) = l.
Proof.
  induction l as [|w l IH]; [done|].
  change (omap item_str (map IStr (w :: l)))
    with (w :: omap item_str (map IStr l)).
  by rewrite IH.
Qed.

Lemma findall_word_runs s :
  omap item_str (findall no_flags word_pattern s) = word_runs s.
Proof.
  unfold findall. rewrite (findall_words (length s)) by done.
  apply omap_item_str.
Qed.

(** ** Frequencies and first occurrences when a token is appended *)

Lemma freq_snoc v l w :
  freq v (l ++ [w]) = (freq v l + if decide (w = v) then 1 else 0)%nat.
Proof.
  unfold freq. rewrite filter_app, length_app. f_equal.
  rewrite filter_cons. by destruct (decide (w = v)).
Qed.

Lemma freq_absent v l : v ∉ l -> freq v l = 0%nat.
Proof.
  unfold freq. induction l as [|x l IH]; [done|].
  intros [Hx Hl]%not_elem_of_cons. rewrite filter_cons.
  destruct (decide (x = v)); [congruence|by apply IH].
Qed.

Lemma first_index_lt v l : v ∈ l -> (first_index v l < length l)%nat.
Proof.
  induction l as [|x l IH]; [by intros ?%elem_of_nil|]. simpl.
  destruct (decide (x = v)); [lia|].
  intros [?|H]%elem_of_cons; [congruence|]. apply IH in H. lia.
Qed.

Lemma first_index_snoc_in v l w :
  v ∈ l -> first_index v (l ++ [w]) = first_index v l.
Proof.
  induction l as [|x l IH]; [by intros ?%elem_of_nil|]. simpl.
  destruct (decide (x = v)); [done|].
  intros [?|H]%elem_of_cons; [congruence|]. by rewrite IH.
Qed.

Lemma first_index_snoc_new w l :
  w ∉ l -> first_index w (l ++ [w]) = length l.
Proof.
  induction l as [|x l IH]; simpl.
  - intros _. by rewrite decide_True.
  - intros [Hx Hl]%not_elem_of_cons.
    rewrite decide_False by congruence. by rewrite IH.
Qed.

(** ** The counter of a token list *)

Lemma counter_add_entries w (f : str -> nat) ks :
  NoDup ks ->
  Counter.add w (map (fun v => (v, f v)) ks)
  = if decide (w ∈ ks)
    then map (fun v => (v, if decide (w = v) then S (f v) else f v)) ks
    else map (fun v => (v, f v)) ks ++ [(w, 1%nat)].
Proof.
  induction ks as [|v ks IH]; intros Hnd.
  - by rewrite decide_False by apply not_elem_of_nil.
  - apply NoDup_cons in Hnd as [Hv Hnd]. cbn [map Counter.add].
    destruct (str_eqb v w) eqn:E.
    + apply str_eqb_eq in E as ->.
      rewrite decide_True by apply list_elem_of_here.
      rewrite decide_True by done. f_equal.
      apply map_ext_in. intros x Hx%list_elem_of_In.
      rewrite decide_False; [done|]. by intros ->.
    + assert (v <> w) as Hne by (intros ->; by rewrite str_eqb_refl in E).
      rewrite IH by done. destruct (decide (w ∈ ks)) as [Hin|Hin].
      * rewrite decide_True by by apply list_elem_of_further.
        by rewrite decide_False by done.
      * rewrite decide_False; [done|].
        intros [?|?]%elem_of_cons; congruence.
Qed.

Lemma counter_of_list_snoc l w :
  Counter.of_list (l ++ [w]) = Counter.add w (Counter.of_list l).
Proof. unfold Counter.of_list. by rewrite fold_left_app. Qed.

Lemma StronglySorted_impl_elem {A} (R R' : relation A) l :
  (forall a b, a ∈ l -> b ∈ l -> R a b -> R' a b) ->
  StronglySorted R l -> StronglySorted R' l.
Proof.
  intros Himpl Hs. induction Hs as [|a l Hs IH Hall]; constructor.
  - apply IH. intros x y Hx Hy. apply Himpl; by apply list_elem_of_further.
  - rewrite Forall_forall in *. intros y Hy.
    apply Himpl; [apply list_elem_of_here|by apply list_elem_of_further|auto].
Qed.

(** A counter holds, for the distinct tokens in the order of their first
    occurrence, the number of their occurrences. *)
Lemma counter_of_list_spec l :
  exists ks,
    Counter.of_list l = map (entry_of l) ks
    /\ NoDup ks
    /\ (forall v, v ∈ ks <-> v ∈ l)
    /\ StronglySorted (fun a b => (first_index a l < first_index b l)%nat) ks.
Proof.
  induction l as [|w l IH] using rev_ind.
  - exists []. repeat split; try done; constructor.
  - destruct IH as (ks & Hc & Hnd & Hin & Hs).
    rewrite counter_of_list_snoc, Hc. unfold entry_of at 1.
    rewrite counter_add_entries by done.
    destruct (decide (w ∈ ks)) as [Hw|Hw].
    + exists ks. repeat split; try done.
      * apply map_ext. intros v. unfold entry_of. rewrite freq_snoc.
        destruct (decide (w = v)); f_equal; lia.
      * intros Hv. apply elem_of_app. left. by apply Hin.
      * intros [Hv|Hv%list_elem_of_singleton]%elem_of_app;
          [by apply Hin|by subst].
      * eapply StronglySorted_impl_elem; [|exact Hs].
        intros a b Ha%Hin Hb%Hin.
        by rewrite !first_index_snoc_in by done.
    + assert (w ∉ l) as Hwl by (by rewrite <- Hin).
      exists (ks ++ [w]). repeat split.
      * rewrite map_app. f_equal.
        -- apply map_ext_in. intros v Hv%list_elem_of_In. unfold entry_of.
           rewrite freq_snoc. rewrite decide_False by (intros ->; done).
           f_equal. lia.
        -- cbn. unfold entry_of. rewrite freq_snoc, freq_absent by done.
           by rewrite decide_True.
      * apply NoDup_app. repeat split; [done| |apply NoDup_singleton].
        intros v Hv ->%list_elem_of_singleton. done.
      * intros [Hv%Hin|Hv]%elem_of_app; apply elem_of_app; auto.
      * intros [Hv%Hin|Hv]%elem_of_app; apply elem_of_app; auto.
      * apply StronglySorted_app_2.
        -- intros a b Ha%Hin ->%list_elem_of_singleton.
           rewrite first_index_snoc_in, first_index_snoc_new by done.
           by apply first_index_lt.
        -- eapply StronglySorted_impl_elem; [|exact Hs].
           intros a b Ha%Hin Hb%Hin.
           by rewrite !first_index_snoc_in by done.
        -- repeat constructor.
Qed.

(** ** The stable sort by descending count *)

Lemma insert_desc_perm x l : Counter.insert_desc x l ≡ₚ x :: l.
Proof.
  induction l as [|y l IH]; [done|]. cbn [Counter.insert_desc].
  destruct (snd x <? snd y)%nat; [|done].
  rewrite IH. apply Permutation_swap.
Qed.

Lemma sorted_desc_perm l : Counter.sorted_desc l ≡ₚ l.
Proof.
  induction l as [|x l IH]; [done|]. cbn [Counter.sorted_desc foldr].
  rewrite insert_desc_perm. by constructor.
Qed.

(** Inserting an entry that precedes, by first occurrence, all the
    entries of a ranked list keeps the list ranked. *)
Lemma insert_desc_sorted toks x l :
  Forall (fun y => (first_index (fst x) toks < first_index (fst y) toks)%nat) l ->
  StronglySorted (entry_before toks) l ->
  StronglySorted (entry_before toks) (Counter.insert_desc x l).
Proof.
  intros Hx Hs. induction Hs as [|y l Hs IH Hy]; cbn [Counter.insert_desc].
  - repeat constructor.
  - apply Forall_cons in Hx as [Hxy Hx].
    destruct (snd x <? snd y)%nat eqn:E.
    + apply Nat.ltb_lt in E. constructor; [by apply IH|].
      rewrite insert_desc_perm. constructor; [by left|done].
    + apply Nat.ltb_ge in E. constructor; [by constructor|].
      constructor.
      * unfold entry_before. destruct (decide (snd x = snd y)); [right|left]; lia.
      * rewrite Forall_forall in *. intros z Hz.
        specialize (Hx z Hz). specialize (Hy z Hz).
        unfold entry_before in *.
        destruct (decide (snd x = snd z)); [right|left]; lia.
Qed.

Lemma sorted_desc_sorted toks l :
  StronglySorted
    (fun x y => (first_index (fst x) toks < first_index (fst y) toks)%nat) l ->
  StronglySorted (entry_before toks) (Counter.sorted_desc l).
Proof.
  induction 1 as [|x l Hs IH Hx]; cbn [Counter.sorted_desc foldr].
  - constructor.
  - apply insert_desc_sorted; [|done].
    fold (Counter.sorted_desc l). by rewrite sorted_desc_perm.
Qed.

(** ** Keywords: the first [k] of the ranking of the distinct tokens *)

Lemma filtered_tokens stop_words text :
  filter (fun w => keep_word stop_words w = true)
    (omap item_str (findall no_flags word_pattern (str_lower text)))
  = tokens stop_words text.
Proof.
  unfold tokens. rewrite findall_word_runs. apply list_filter_iff.
  intros w. unfold keep_word.
  rewrite andb_true_iff, negb_true_iff, bool_decide_eq_false, Nat.ltb_lt.
  done.
Qed.

Lemma keywords_ranking stop_words text k :
  exists ranked,
    extract_keywords stop_words text k = take k ranked
    /\ (forall w, w ∈ ranked <-> w ∈ tokens stop_words text)
    /\ StronglySorted (ranks_before (tokens stop_words text)) ranked.
Proof.
  unfold extract_keywords. cbv zeta. rewrite filtered_tokens.
  set (toks := tokens stop_words text).
  destruct (counter_of_list_spec toks) as (ks & Hc & Hnd & Hin & Hs).
  exists (map fst (Counter.sorted_desc (Counter.of_list toks))).
  split; [|split].
  - unfold Counter.most_common. apply fmap_take.
  - intros w. rewrite <- Hin, sorted_desc_perm, Hc.
    rewrite <- list_fmap_compose. unfold compose, entry_of. cbn [fst].
    by rewrite list_fmap_id.
  - assert (StronglySorted (entry_before toks)
              (Counter.sorted_desc (Counter.of_list toks))) as Hsorted.
    { apply sorted_desc_sorted. rewrite Hc.
      eapply StronglySorted_fmap; [|exact Hs]. by intros a b. }
    apply (StronglySorted_fmap fst) with
      (R1 := fun x y => entry_before toks x y
                        /\ snd x = freq (fst x) toks /\ snd y = freq (fst y) toks).
    + intros x y (H & Ex & Ey). unfold entry_before, ranks_before in *.
      by rewrite <- Ex, <- Ey.
    + eapply StronglySorted_impl_elem; [|exact Hsorted].
      assert (forall x, x ∈ Counter.sorted_desc (Counter.of_list toks) ->
                        snd x = freq (fst x) toks) as Hfreq.
      { intros x. rewrite sorted_desc_perm, Hc.
        by intros (v & -> & _)%list_elem_of_fmap. }
      intros a b Ha Hb H. auto.
Qed.

Lemma filter_bool {A} (f : A -> bool) l :
  filter (fun w => f w = true) l = List.filter f l.
Proof.
  induction l as [|x l IH]; [done|]. rewrite filter_cons. cbn [List.filter].
  destruct (f x) eqn:E.
  - rewrite decide_True by done. by rewrite IH.
  - rewrite decide_False by congruence. done.
Qed.

Lemma keep_word_true stop_words w :
  w ∉ stop_words -> (2 <? length w)%nat = true -> keep_word stop_words w = true.
Proof.
  intros Hw Hl. unfold keep_word. rewrite Hl.
  by rewrite bool_decide_eq_false_2.
Qed.

Lemma keep_word_stop stop_words w :
  w ∈ stop_words -> keep_word stop_words w = false.
Proof.
  intros Hw. unfold keep_word. by rewrite bool_decide_eq_true_2.
Qed.

Lemma keep_word_short stop_words w :
  (2 <? length w)%nat = false -> keep_word stop_words w = false.
Proof. intros Hl. unfold keep_word. rewrite Hl. apply andb_false_r. Qed.

(** C5. [extract_keywords] returns the first [k] entries of the ranking
    of the distinct tokens, where the tokens are the maximal runs of
    alphanumeric or underscore characters of the lower-cased text that
    are not stop words and are longer than two characters, and the
    ranking puts a token before every token that is less frequent, or as
    frequent and first met later.  With a stop-word list that holds "the"
    and none of "cat", "sat", "mat", "ran", the sentence "the cat sat on
    the mat the cat ran" and k = 2 give ["cat", "sat"]. *)
Theorem extract_keywords_ranked (stop_words : list str) (text : str) (k : nat) :
  (exists ranked,
     extract_keywords stop_words text k = take k ranked
     /\ (forall w, w ∈ ranked <-> w ∈ tokens stop_words text)
     /\ StronglySorted (ranks_before (tokens stop_words text)) ranked)
  /\ (py "the" ∈ stop_words ->
      py "cat" ∉ stop_words -> py "sat" ∉ stop_words ->
      py "mat" ∉ stop_words -> py "ran" ∉ stop_words ->
      extract_keywords stop_words cat_text 2 = [py "cat"; py "sat"]).
Proof.
  split; [apply keywords_ranking|].
  intros Hthe Hcat Hsat Hmat Hran. unfold extract_keywords. cbv zeta.
  rewrite findall_word_runs, filter_bool.
  change (word_runs (str_lower cat_text))
    with [py "the"; py "cat"; py "sat"; py "on"; py "the"; py "mat";
          py "the"; py "cat"; py "ran"].
  cbn [List.filter].
  rewrite (keep_word_stop _ _ Hthe), (keep_word_short _ (py "on")) by done.
  rewrite !keep_word_true by done.
  vm_compute. reflexivity.
Qed.

Lemma extract_keywords_ranked_witness :
  (exists ranked,
     extract_keywords sample_stop_words cat_text 2 = take 2 ranked
     /\ (forall w, w ∈ ranked <-> w ∈ tokens sample_stop_words cat_text)
     /\ StronglySorted (ranks_before (tokens sample_stop_words cat_text)) ranked)
  /\ extract_keywords sample_stop_words cat_text 2 = [py "cat"; py "sat"].
Proof.
  destruct (extract_keywords_ranked sample_stop_words cat_text 2) as [H1 H2].
  split; [exact H1|].
  apply H2; apply (bool_decide_unpack _); vm_compute; exact I.
Defined.

(** ** One run of [main]: what it may change *)

Ltac unchanged_log :=
  exists []; split; [by rewrite app_nil_r|simpl; lia].

Ltac unchanged_logs :=
  split; [done|split; [done|unchanged_log]].

Section SessionProperties.

Variable stopwords_english : list str.
Variable generate_text : str -> outcome str.
Variable PdfReader_pages : str -> outcome (list (option str)).
Variable DOCXParser_extract_text : str -> outcome str.

Local Abbreviation parse := (parse_upload PdfReader_pages DOCXParser_extract_text).
Local Abbreviation upload_step :=
  (handle_upload PdfReader_pages DOCXParser_extract_text).
Local Abbreviation run_main :=
  (main stopwords_english generate_text PdfReader_pages DOCXParser_extract_text).

Lemma handle_upload_logs content_type f s :
  chat_history (session_of (upload_step content_type f s)) = chat_history s
  /\ all_generated (session_of (upload_step content_type f s)) = all_generated s.
Proof.
  unfold handle_upload.
  destruct (parse_upload _ _ f) as [[t|e]|]; [|done|done].
  destruct (str_eqb content_type _); [|done].
  by destruct (bool_decide _).
Qed.

Lemma handle_generate_effect w t s :
  let s' := session_of (handle_generate stopwords_english generate_text w t s) in
  chapters s' = chapters s /\ chat_history s' = chat_history s
  /\ exists g, all_generated s' = all_generated s ++ g /\ (length g <= 1)%nat.
Proof.
  cbv zeta. unfold handle_generate.
  destruct (main_chapter_text _ _ _ _);
    [|unchanged_logs].
  destruct (generate_clicked w);
    [|unchanged_logs].
  destruct (generate _ _ _ _) as [r|e];
    [|unchanged_logs].
  split; [done|split; [done|]]. exists [r]. split; [done|simpl; lia].
Qed.

Lemma handle_chat_effect w t s :
  let s' := handle_chat generate_text w t s in
  chapters s' = chapters s /\ all_generated s' = all_generated s
  /\ exists c, chat_history s' = chat_history s ++ c /\ (length c <= 1)%nat.
Proof.
  cbv zeta. unfold handle_chat.
  destruct (user_input w);
    [unchanged_logs|].
  destruct (chatbot_response _ _ _ _ _ _) as [r|e];
    [|unchanged_logs].
  split; [done|split; [done|]]. eexists [_]. split; [done|simpl; lia].
Qed.

(** The part of [main] below the upload block. *)
Lemma columns_effect w s1 :
  let s' := match extracted_text s1 with
            | Some (c :: t) =>
                match handle_generate stopwords_english generate_text w (c :: t) s1 with
                | Returned s2 => s2
                | Finished s2 => handle_chat generate_text w (c :: t) s2
                end
            | _ => s1
            end in
  chapters s' = chapters s1
  /\ (exists g, all_generated s' = all_generated s1 ++ g /\ (length g <= 1)%nat)
  /\ (exists c, chat_history s' = chat_history s1 ++ c /\ (length c <= 1)%nat).
Proof.
  cbv zeta.
  assert (chapters s1 = chapters s1
    /\ (exists g, all_generated s1 = all_generated s1 ++ g /\ (length g <= 1)%nat)
    /\ (exists c, chat_history s1 = chat_history s1 ++ c /\ (length c <= 1)%nat))
    as Hsame by (split; [done|split; unchanged_log]).
  destruct (extracted_text s1) as [[|c t]|]; try done.
  pose proof (handle_generate_effect w (c :: t) s1) as (Hc & Hh & g & Hg & Hl).
  destruct (handle_generate _ _ w (c :: t) s1) as [s2|s2]; simpl in *.
  - split; [done|split; [by exists g|rewrite Hh; unchanged_log]].
  - pose proof (handle_chat_effect w (c :: t) s2) as (Hc' & Hg' & ch & Hch & Hl').
    cbv zeta in *. split; [congruence|split].
    + exists g. split; [congruence|done].
    + exists ch. split; [congruence|done].
Qed.

(** X9. Within a session the two logs only grow, by at most one entry per
    run. *)
Theorem logs_append_only w s :
  reset_clicked w = false ->
  (exists g, all_generated (main stopwords_english generate_text PdfReader_pages
     DOCXParser_extract_text w s) = all_generated s ++ g
             /\ (length g <= 1)%nat)
  /\ (exists c, chat_history (main stopwords_english generate_text PdfReader_pages
     DOCXParser_extract_text w s) = chat_history s ++ c
                /\ (length c <= 1)%nat).
Proof.
  intros Hr. unfold main. rewrite Hr.
  destruct (uploaded_file w) as [f|].
  - pose proof (handle_upload_logs (content_type w) f s) as [Hh Hg].
    destruct (handle_upload _ _ (content_type w) f s) as [s1|s1]; simpl in *.
    + split; unchanged_log.
    + pose proof (columns_effect w s1) as (_ & Hg' & Hh'). cbv zeta in *.
      by rewrite <- Hh, <- Hg.
  - pose proof (columns_effect w s) as (_ & Hg' & Hh'). done.
Qed.

(** X10. An upload that is refused (unsupported name) or whose parser raises
    ends the run at once: the session is left as it was, and neither the
    Generate button nor a chat question of that run is served. *)
Theorem failed_upload_skips_run w s f :
  reset_clicked w = false -> uploaded_file w = Some f ->
  (parse_upload PdfReader_pages DOCXParser_extract_text f = None
   \/ exists e,
        parse_upload PdfReader_pages DOCXParser_extract_text f = Some (Raise e)) ->
  main stopwords_english generate_text PdfReader_pages
    DOCXParser_extract_text w s = s.
Proof.
  intros Hr Hu Hp. unfold main, handle_upload. rewrite Hr, Hu.
  by destruct Hp as [->|[e ->]].
Qed.

(** X11. A book in which no heading is detected replaces the text but not the
    chapter map: the chapters of the previous document stay in the
    session. *)
Theorem no_heading_keeps_chapters w s f t :
  reset_clicked w = false -> uploaded_file w = Some f ->
  parse_upload PdfReader_pages DOCXParser_extract_text f = Some (Ok t) ->
  extract_chapters (if (MAX_CHARS <? length t)%nat then take MAX_CHARS t else t) = ∅ ->
  extracted_text (main stopwords_english generate_text PdfReader_pages
     DOCXParser_extract_text w s)
    = Some (if (MAX_CHARS <? length t)%nat then take MAX_CHARS t else t)
  /\ chapters (main stopwords_english generate_text PdfReader_pages
     DOCXParser_extract_text w s) = chapters s.
Proof.
  intros Hr Hu Hp He. split.
  - rewrite (main_text stopwords_english generate_text). cbv zeta.
    by rewrite Hr, Hu, handle_upload_text, Hp.
  - unfold main. rewrite Hr, Hu. unfold handle_upload. rewrite Hp, He.
    set (s1 := set_extracted_text _ s).
    assert (match (if str_eqb (content_type w) (py "Book")
                   then if bool_decide (∅ = (∅ : gmap N str)) then Finished s1
                        else Finished (set_chapters ∅ s1)
                   else Finished s1) with
            | Returned s0 => s0
            | Finished s0 =>
                match extracted_text s0 with
                | Some (c :: t0) =>
                    match handle_generate stopwords_english generate_text w (c :: t0) s0 with
                    | Returned s2 => s2
                    | Finished s2 => handle_chat generate_text w (c :: t0) s2
                    end
                | _ => s0
                end
            end =
            match extracted_text s1 with
            | Some (c :: t0) =>
                match handle_generate stopwords_english generate_text w (c :: t0) s1 with
                | Returned s2 => s2
                | Finished s2 => handle_chat generate_text w (c :: t0) s2
                end
            | _ => s1
            end) as ->.
    { destruct (str_eqb _ _); [|done]. by rewrite bool_decide_eq_true_2. }
    by destruct (columns_effect w s1) as (-> & _).
Qed.

(** X12. When the generator raises on every prompt, nothing is logged: the
    chat history is unchanged, and so is the generated-content log unless
    the task is the keyword extraction, which does not call it. *)
Theorem generator_down_logs_nothing w s :
  reset_clicked w = false ->
  (forall p, exists e, generate_text p = Raise e) ->
  chat_history (main stopwords_english generate_text PdfReader_pages
     DOCXParser_extract_text w s) = chat_history s
  /\ (task_choice w <> ExtractKeywords ->
      all_generated (main stopwords_english generate_text PdfReader_pages
     DOCXParser_extract_text w s) = all_generated s).
Proof.
  intros Hr Hdown.
  assert (forall t s1,
    chat_history (handle_chat generate_text w t s1) = chat_history s1
    /\ all_generated (handle_chat generate_text w t s1) = all_generated s1)
    as Hchat.
  { intros t s1. unfold handle_chat. destruct (user_input w); [done|].
    unfold chatbot_response.
    destruct (chat_context _ _ _ _) as [c|e]; [|done]. cbn [bind].
    by destruct (Hdown (chat_prompt (take 3000 c) (a :: l))) as [e ->]. }
  assert (forall t s1,
    let s' := session_of (handle_generate stopwords_english generate_text w t s1) in
    chat_history s' = chat_history s1
    /\ (task_choice w <> ExtractKeywords -> all_generated s' = all_generated s1))
    as Hgen.
  { intros t s1. cbv zeta. unfold handle_generate.
    destruct (main_chapter_text _ _ _ _) as [ct|e]; [|done].
    destruct (generate_clicked w); [|done].
    unfold generate, task_prompt.
    destruct (task_choice w); cbn [prompt_map bind];
      try (match goal with |- context [generate_text ?p] =>
             destruct (Hdown p) as [e ->] end; done).
    split; [done|]. by intros []. }
  assert (forall s1,
    let s' := match extracted_text s1 with
              | Some (c :: t) =>
                  match handle_generate stopwords_english generate_text w (c :: t) s1 with
                  | Returned s2 => s2
                  | Finished s2 => handle_chat generate_text w (c :: t) s2
                  end
              | _ => s1
              end in
    chat_history s' = chat_history s1
    /\ (task_choice w <> ExtractKeywords -> all_generated s' = all_generated s1))
    as Hcols.
  { intros s1. cbv zeta. destruct (extracted_text s1) as [[|c t]|]; try done.
    pose proof (Hgen (c :: t) s1) as [Hh Hg]. cbv zeta in *.
    destruct (handle_generate _ _ w (c :: t) s1) as [s2|s2]; simpl in *; [done|].
    destruct (Hchat (c :: t) s2) as [-> ->]. done. }
  unfold main. rewrite Hr. destruct (uploaded_file w) as [f|]; [|apply Hcols].
  pose proof (handle_upload_logs (content_type w) f s) as [Hh Hg].
  destruct (handle_upload _ _ (content_type w) f s) as [s1|s1]; simpl in *.
  - done.
  - rewrite <- Hh, <- Hg. apply Hcols.
Qed.

End SessionProperties.

Lemma logs_append_only_witness :
  (exists g, all_generated (main [] Ok long_reader Ok ask_and_generate reading_session)
             = all_generated reading_session ++ g /\ (length g <= 1)%nat)
  /\ (exists c, chat_history (main [] Ok long_reader Ok ask_and_generate reading_session)
                = chat_history reading_session ++ c /\ (length c <= 1)%nat).
Proof.
  apply (logs_append_only [] Ok long_reader Ok ask_and_generate reading_session).
  reflexivity.
Defined.

Lemma failed_upload_skips_run_witness :
  main [] Ok long_reader Ok upload_image reading_session = reading_session.
Proof.
  apply (failed_upload_skips_run [] Ok long_reader Ok upload_image
           reading_session image_upload).
  - reflexivity.
  - reflexivity.
  - left. vm_compute. reflexivity.
Defined.

Lemma no_heading_keeps_chapters_witness :
  extracted_text (main [] Ok long_reader Ok upload_plain_book reading_session)
    = Some (if (MAX_CHARS <? length (py "no headings here"))%nat
            then take MAX_CHARS (py "no headings here")
            else py "no headings here")
  /\ chapters (main [] Ok long_reader Ok upload_plain_book reading_session)
     = chapters reading_session.
Proof.
  apply (no_heading_keeps_chapters [] Ok long_reader Ok upload_plain_book
           reading_session plain_upload (py "no headings here")).
  - reflexivity.
  - reflexivity.
  - vm_compute. reflexivity.
  - vm_compute. reflexivity.
Defined.

Lemma generator_down_logs_nothing_witness :
  chat_history (main [] failing_generator long_reader Ok ask_and_generate
                  reading_session) = chat_history reading_session
  /\ (task_choice ask_and_generate <> ExtractKeywords ->
      all_generated (main [] failing_generator long_reader Ok ask_and_generate
                       reading_session) = all_generated reading_session).
Proof.
  apply (generator_down_logs_nothing [] failing_generator long_reader Ok
           ask_and_generate reading_session).
  - reflexivity.
  - intros p. exists GenerationError. reflexivity.
Defined.

(** ** Texts without a heading word *)








(** ** Every "Chapter N" heading ends with the default title *)


Lemma digit_not_space c : Char.is_digit c = true -> Char.is_space c = false.
Proof.
  destruct c as [[] [] [] [] [] [] [] []]; vm_compute; congruence.
Qed.











(** ** What a keyword can be *)






(** ** The cells of the PDF give the text back *)

Lemma split_nl_nonempty s : split_nl s <> [].
Proof.
  destruct s as [|c s]; [done|]. cbn [split_nl].
  destruct (Char.eqb c nl); [done|]. by destruct (split_nl s).
Qed.

Lemma join_cons_cons sep p q ps :
  join sep (p :: q :: ps) = p ++ sep ++ join sep (q :: ps).
Proof. reflexivity. Qed.

Lemma join_split_nl s : join [nl] (split_nl s) = s.
Proof.
  induction s as [|c s IH]; [done|]. cbn [split_nl].
  pose proof (split_nl_nonempty s) as Hne.
  destruct (Char.eqb c nl) eqn:E.
  - apply char_eqb_eq in E as ->. destruct (split_nl s) as [|l ls]; [done|].
    rewrite join_cons_cons, IH. reflexivity.
  - destruct (split_nl s) as [|l ls]; [done|]. destruct ls as [|l' ls].
    + cbn [join] in *. by rewrite IH.
    + rewrite join_cons_cons in *. by rewrite <- IH.
Qed.

Lemma split_nl_no_newline s : Forall (fun l => nl ∉ l) (split_nl s).
Proof.
  induction s as [|c s IH]; cbn [split_nl].
  - repeat constructor. apply not_elem_of_nil.
  - destruct (Char.eqb c nl) eqn:E.
    + constructor; [apply not_elem_of_nil|done].
    + pose proof (split_nl_nonempty s) as Hne.
      destruct (split_nl s) as [|l ls]; [done|].
      apply Forall_cons in IH as [Hl Hls]. constructor; [|done].
      intros [Heq|?]%elem_of_cons; [|done]. subst c.
      by rewrite (proj2 (char_eqb_eq nl nl) eq_refl) in E.
Qed.

Lemma split_nl_length s :
  length (split_nl s) = S (length (filter (fun c => c = nl) s)).
Proof.
  induction s as [|c s IH]; [done|]. cbn [split_nl]. rewrite filter_cons.
  destruct (Char.eqb c nl) eqn:E.
  - apply char_eqb_eq in E as ->. rewrite decide_True by done.
    cbn [length]. by rewrite IH.
  - rewrite decide_False
      by (intros ->; by rewrite (proj2 (char_eqb_eq nl nl) eq_refl) in E).
    pose proof (split_nl_nonempty s) as Hne.
    destruct (split_nl s) as [|l ls]; [done|]. exact IH.
Qed.

(** X4. The cells [export_to_pdf] writes, joined by newlines, are the text
    again; no cell holds a newline, and there is one cell more than the
    text has newlines (so the empty text still writes one empty cell). *)
Theorem pdf_cells_round_trip (text : str) :
  join [nl] (map snd (pdf_cells (export_to_pdf_document text))) = text
  /\ Forall (fun cell => nl ∉ cell)
       (map snd (pdf_cells (export_to_pdf_document text)))
  /\ length (pdf_cells (export_to_pdf_document text))
     = S (length (filter (fun c => c = nl) text)).
Proof.
  assert (map snd (pdf_cells (export_to_pdf_document text)) = split_nl text)
    as Hcells by (unfold export_to_pdf_document; by rewrite multi_cell_fold).
  rewrite <- (length_map snd), Hcells.
  split; [apply join_split_nl|]. split; [apply split_nl_no_newline|].
  apply split_nl_length.
Qed.

(** ** Chat transcripts *)

Lemma transcript_lines_fold l : forall lines,
  fold_left
    (fun lines entry =>
       let lines := lines ++ [you_line entry] in
       let lines := lines ++ [bot_line entry] in
       lines ++ [[]]) l lines
  = lines ++ concat (map entry_lines l).
Proof.
  induction l as [|e l IH]; intros lines; cbn [fold_left map concat].
  - by rewrite app_nil_r.
  - cbv zeta. rewrite IH. unfold entry_lines. by rewrite <- !app_assoc.
Qed.

Lemma transcript_paragraphs_fold l : forall doc,
  doc_paragraphs
    (fold_left
       (fun doc entry =>
          let doc := add_paragraph (you_line entry) doc in
          let doc := add_paragraph (bot_line entry) doc in
          add_paragraph [] doc) l doc)
  = doc_paragraphs doc ++ concat (map entry_lines l).
Proof.
  induction l as [|e l IH]; intros doc; cbn [fold_left map concat].
  - by rewrite app_nil_r.
  - cbv zeta. rewrite IH. unfold entry_lines. cbn [add_paragraph doc_paragraphs].
    by rewrite <- !app_assoc.
Qed.

Lemma entry_lines_length l :
  length (concat (map entry_lines l)) = (3 * length l)%nat.
Proof.
  induction l as [|e l IH]; [done|]. cbn [map concat].
  rewrite length_app, IH. cbn [entry_lines length]. lia.
Qed.

(** X5. The text and the Word transcript of a chat hold the same lines: three
    per entry, the most recent entry first; the Word buffer is returned
    at offset zero. *)
Theorem transcripts_agree (Document_bytes : Document -> str)
    (history : list chat_entry) (entry : chat_entry) :
  chat_history_to_text history
    = join [nl] (doc_paragraphs (chat_history_to_word_document history))
  /\ length (doc_paragraphs (chat_history_to_word_document history))
     = (3 * length history)%nat
  /\ doc_paragraphs (chat_history_to_word_document (history ++ [entry]))
     = entry_lines entry ++ doc_paragraphs (chat_history_to_word_document history)
  /\ chat_history_to_word Document_bytes history
     = {| buf_data := Document_bytes (chat_history_to_word_document history);
          buf_pos := 0 |}.
Proof.
  unfold chat_history_to_text, chat_history_to_word_document. cbv zeta.
  rewrite !transcript_lines_fold, !transcript_paragraphs_fold.
  cbn [doc_paragraphs Document_new app].
  split; [done|]. split; [|split; [|done]].
  - rewrite entry_lines_length. by rewrite length_rev.
  - rewrite rev_app_distr. reflexivity.
Qed.

(** ** Decimal digits: [int(str(n))] is [n] *)

Lemma py_int_digits_acc d : forall acc,
  fold_left (fun acc c => 10 * acc + digit_val c)
    (py (NilEmpty.string_of_uint d)) (Npos acc)
  = Npos (Pos.of_uint_acc d acc).
Proof.
  induction d as [|d IH|d IH|d IH|d IH|d IH|d IH|d IH|d IH|d IH|d IH];
    intros acc; [done|..];
    cbn [NilEmpty.string_of_uint py list_ascii_of_string fold_left Pos.of_uint_acc];
    fold (py (NilEmpty.string_of_uint d));
    (etransitivity; [|apply IH]); f_equal; unfold digit_val, Char.code;
    cbn [N_of_ascii N_of_digits]; lia.
Qed.

Lemma py_int_digits d :
  py_int (py (NilEmpty.string_of_uint d)) = N.of_uint d.
Proof.
  unfold py_int, N.of_uint.
  induction d as [|d IH|d IH|d IH|d IH|d IH|d IH|d IH|d IH|d IH|d IH];
    [done|exact IH|..];
    cbn [NilEmpty.string_of_uint py list_ascii_of_string fold_left Pos.of_uint];
    fold (py (NilEmpty.string_of_uint d));
    (etransitivity; [|apply py_int_digits_acc]); f_equal.
Qed.

Lemma digits_are_digits d :
  Forall (fun c => Char.is_digit c = true) (py (NilEmpty.string_of_uint d)).
Proof.
  induction d; cbn [NilEmpty.string_of_uint py list_ascii_of_string];
    constructor; done.
Qed.

Lemma str_of_N_digits n :
  str_of_N n <> [] /\ Forall (fun c => Char.is_digit c = true) (str_of_N n)
  /\ py_int (str_of_N n) = n.
Proof.
  unfold str_of_N, NilZero.string_of_uint.
  pose proof (DecimalN.Unsigned.of_to n) as Hn.
  destruct (N.to_uint n) as [|d|d|d|d|d|d|d|d|d|d] eqn:E;
    try (split; [done|split; [apply digits_are_digits|
                              by rewrite py_int_digits]]).
  split; [done|]. split; [repeat constructor|]. by rewrite <- Hn.
Qed.

(** ** The chapter number read back from a selectbox option *)

Lemma split_ws_acc_word w : forall cur sp rest,
  Forall (fun c => Char.is_space c = false) w ->
  Char.is_space sp = true ->
  split_ws_acc cur (w ++ sp :: rest)
  = flush (rev w ++ cur) ++ split_ws_acc [] rest.
Proof.
  induction w as [|c w IH]; intros cur sp rest Hw Hsp; cbn [app split_ws_acc].
  - by rewrite Hsp.
  - apply Forall_cons in Hw as [Hc Hw]. rewrite Hc, IH by done.
    cbn [rev]. by rewrite <- app_assoc.
Qed.

Lemma digit_not_colon c : Char.is_digit c = true -> c <> ":"%char.
Proof. intros H ->. vm_compute in H. done. Qed.

Lemma remove_colons_digits ds :
  Forall (fun c => Char.is_digit c = true) ds ->
  remove_colons (ds ++ [":"%char]) = ds.
Proof.
  intros H. unfold remove_colons. rewrite filter_app.
  rewrite filter_cons, decide_False by (by intros []).
  rewrite app_nil_r. induction H as [|c ds Hc _ IH]; [done|].
  rewrite filter_cons, decide_True by by apply digit_not_colon.
  by rewrite IH.
Qed.

Lemma int_of_digits_digits ds :
  ds <> [] -> Forall (fun c => Char.is_digit c = true) ds ->
  int_of_digits ds = Some (py_int ds).
Proof.
  intros Hne H. unfold int_of_digits. destruct ds as [|d ds]; [done|].
  assert (forallb Char.is_digit (d :: ds) = true) as ->; [|done].
  apply forallb_forall. intros c Hc%list_elem_of_In.
  rewrite Forall_forall in H. by apply H.
Qed.

Lemma heading_second_word n title :
  split_ws (heading n title) !! 1%nat = Some (str_of_N n ++ [":"%char]).
Proof.
  destruct (str_of_N_digits n) as (Hne & Hd & _).
  unfold split_ws, heading.
  change (py "Chapter " ++ str_of_N n ++ py ": " ++ title)
    with (py "Chapter" ++ " "%char :: (str_of_N n ++ ":"%char :: " "%char :: title)).
  rewrite split_ws_acc_word by (repeat constructor).
  replace (str_of_N n ++ ":"%char :: " "%char :: title)
    with ((str_of_N n ++ [":"%char]) ++ " "%char :: title)
    by (by rewrite <- app_assoc).
  rewrite split_ws_acc_word; [|
    apply Forall_app; split;
    [eapply Forall_impl; [exact Hd|]; intros c; apply digit_not_space
    |repeat constructor]|done].
  rewrite !app_nil_r.
  assert (forall l : str, l <> [] -> flush (rev l) = [l]) as Hflush.
  { intros l Hl. unfold flush. destruct (rev l) eqn:E.
    - apply (f_equal (@rev _)) in E. rewrite rev_involutive in E. done.
    - rewrite <- E. by rewrite rev_involutive. }
  rewrite (Hflush (py "Chapter")) by done.
  rewrite Hflush by (by destruct (str_of_N n)).
  reflexivity.
Qed.

(** X6. The number [main] reads back from the option "Chapter {num}: {name}"
    is [num], whatever the name; and for a key of the chapter map the
    lookup that follows in the Generate path cannot fail. *)
Theorem option_round_trip (num : N) (name text content_type : str)
    (chapters : gmap N str) :
  chapters !! num = Some name ->
  selected_of_option (heading num name) = Some num
  /\ exists chapter_text,
       main_chapter_text text chapters content_type (Pick num) = Ok chapter_text.
Proof.
  intros Hk. destruct (str_of_N_digits num) as (Hne & Hd & Hint). split.
  - unfold selected_of_option. rewrite heading_second_word.
    by rewrite remove_colons_digits, int_of_digits_digits, Hint.
  - unfold main_chapter_text. destruct (_ && _); [|by eexists].
    unfold getitem. rewrite Hk. by eexists.
Qed.

Lemma option_round_trip_witness :
  selected_of_option (heading 2 (py "B")) = Some 2
  /\ exists chapter_text,
       main_chapter_text two_sections two_sections_map (py "Book") (Pick 2)
       = Ok chapter_text.
Proof.
  apply (option_round_trip 2 (py "B") two_sections (py "Book") two_sections_map).
  reflexivity.
Defined.

(** ** The scoped context is an excerpt of the document *)

Lemma excerpt_of_refl s : excerpt_of s s.
Proof. exists [], []. by rewrite app_nil_r. Qed.

Lemma excerpt_of_nil s : excerpt_of [] s.
Proof. by exists [], s. Qed.

Lemma excerpt_of_trans u v s : excerpt_of u v -> excerpt_of v s -> excerpt_of u s.
Proof.
  intros (a & b & ->) (a' & b' & ->). exists (a' ++ a), (b ++ b').
  by rewrite <- !app_assoc.
Qed.

Lemma excerpt_of_suffix v m s : excerpt_of v s -> excerpt_of v (m ++ s).
Proof. intros (a & b & ->). exists (m ++ a), b. by rewrite <- app_assoc. Qed.

Lemma captures_from_refl s cs : captures_from s cs cs.
Proof. intros n v H. by left. Qed.

Lemma star_greedy_caps p prev s cs k res :
  star_greedy p prev s cs k = Some res ->
  exists m s' p', s = m ++ s' /\ k p' s' cs = Some res.
Proof.
  intros (m & s' & p' & -> & _ & H)%star_greedy_inv. eauto.
Qed.

(** The captures a match hands to its continuation were cut out of the
    text it ran over. *)
Lemma exec_caps fl r : forall prev s cs k res,
  exec fl r prev s cs k = Some res ->
  exists m s' p' cs', s = m ++ s' /\ k p' s' cs' = Some res
                      /\ captures_from s cs cs'.
Proof.
  induction r as [|c|st|a IHa b IHb|a IHa b IHb|st|st|n a IHa| |];
    intros prev s cs k res; simpl.
  - intros H. exists [], s, prev, cs. auto using captures_from_refl.
  - destruct s as [|x s]; [done|]. destruct (chr_match fl c x); [|done].
    intros H. exists [x], s, (Some x), cs. auto using captures_from_refl.
  - destruct s as [|x s]; [done|]. destruct (in_cset fl st x); [|done].
    intros H. exists [x], s, (Some x), cs. auto using captures_from_refl.
  - intros H. apply IHa in H as (m1 & s1 & p1 & cs1 & -> & H & Hc1).
    apply IHb in H as (m2 & s2 & p2 & cs2 & -> & H & Hc2).
    exists (m1 ++ m2), s2, p2, cs2. rewrite <- app_assoc.
    split; [done|]. split; [done|].
    intros i v Hv. destruct (Hc2 i v Hv) as [Hin|Hex].
    + apply Hc1 in Hin. done.
    + right. by apply excerpt_of_suffix.
  - destruct (exec fl a prev s cs k) eqn:Ha.
    + intros [= <-]. by apply IHa in Ha.
    + intros H. by apply IHb in H.
  - unfold plus_greedy. destruct s as [|x s]; [done|].
    destruct (in_cset fl st x); [|done]. intros H.
    apply star_greedy_caps in H as (m & s' & p' & -> & H).
    exists (x :: m), s', p', cs. auto using captures_from_refl.
  - intros H. apply star_lazy_inv in H as (m & s' & p' & -> & _ & H).
    exists m, s', p', cs. auto using captures_from_refl.
  - intros H. apply IHa in H as (m & s' & p' & cs' & -> & H & Hc).
    eexists m, s', p', _. split; [done|]. split; [exact H|].
    intros i v [[= -> ->]|Hv]%elem_of_cons.
    + right. exists [], s'. rewrite length_app.
      replace (length m + length s' - length s')%nat with (length m) by lia.
      by rewrite take_app_length.
    + by apply Hc.
  - destruct (at_eos s); [|done]. intros H. exists [], s, prev, cs.
    auto using captures_from_refl.
  - destruct (at_boundary prev s); [|done]. intros H. exists [], s, prev, cs.
    auto using captures_from_refl.
Qed.

Lemma group_excerpt n cs s :
  captures_from s [] cs -> excerpt_of (group n cs) s.
Proof.
  intros H. induction cs as [|[m v] cs IH]; [apply excerpt_of_nil|].
  cbn [group]. destruct (Nat.eqb n m).
  - destruct (H m v) as [Hin|Hex]; [apply list_elem_of_here| |done].
    by apply elem_of_nil in Hin.
  - apply IH. intros i w Hw. apply H. by apply list_elem_of_further.
Qed.

Lemma search_from_excerpt fl r n : forall s prev cs s',
  search_from fl r prev s = Some (cs, s') -> excerpt_of (group n cs) s.
Proof.
  induction s as [|x s IH]; intros prev cs s'; cbn [search_from].
  - destruct (match_at fl r prev []) as [[cs0 s0]|] eqn:Hm; [|done].
    intros [= -> ->]. unfold match_at in Hm.
    apply exec_caps in Hm as (m & s1 & p' & cs' & _ & [= -> ->] & Hc).
    by apply group_excerpt.
  - destruct (match_at fl r prev (x :: s)) as [[cs0 s0]|] eqn:Hm.
    + intros [= -> ->]. unfold match_at in Hm.
      apply exec_caps in Hm as (m & s1 & p' & cs' & _ & [= -> ->] & Hc).
      by apply group_excerpt.
    + intros H%IH. by apply (excerpt_of_suffix _ [x]).
Qed.

Lemma lstrip_suffix s : exists a, s = a ++ lstrip s.
Proof.
  induction s as [|c s [a IH]]; [by exists []|]. cbn [lstrip].
  destruct (Char.is_space c); [|by exists []].
  exists (c :: a). cbn [app]. by rewrite <- IH.
Qed.

Lemma strip_excerpt s : excerpt_of (strip s) s.
Proof.
  unfold strip, rstrip.
  destruct (lstrip_suffix s) as [a Ha].
  destruct (lstrip_suffix (rev (lstrip s))) as [b Hb].
  apply (f_equal (@rev _)) in Hb. rewrite rev_involutive, rev_app_distr in Hb.
  exists a, (rev b). by rewrite <- Hb.
Qed.

Lemma scoped_text_excerpt r text : excerpt_of (scoped_text r text) text.
Proof.
  unfold scoped_text, search.
  destruct (search_from _ r None text) as [[cs s']|] eqn:Hs; cbn.
  - eapply excerpt_of_trans; [apply strip_excerpt|].
    by eapply search_from_excerpt.
  - apply excerpt_of_refl.
Qed.

(** X7. Whatever chapter is asked for, the context of the chat and the text
    of the Generate tasks are contiguous parts of the extracted text. *)
Theorem scoped_context_is_excerpt (text : str) (chapters : gmap N str)
    (content_type : str) (selected_chapter : option N)
    (chapter_choice : choice) :
  match chat_context text chapters content_type selected_chapter with
  | Ok c => excerpt_of c text
  | Raise _ => True
  end
  /\ match main_chapter_text text chapters content_type chapter_choice with
     | Ok c => excerpt_of c text
     | Raise _ => True
     end.
Proof.
  split.
  - unfold chat_context. destruct selected_chapter as [n|];
      [|apply excerpt_of_refl].
    destruct (_ && _ && _); [|apply excerpt_of_refl].
    destruct (getitem chapters n); [|done]. cbn [bind].
    apply scoped_text_excerpt.
  - unfold main_chapter_text.
    destruct (_ && _); [|apply excerpt_of_refl].
    destruct chapter_choice as [|n]; [apply excerpt_of_refl|].
    destruct (getitem chapters n); [|done]. cbn [bind].
    apply scoped_text_excerpt.
Qed.

(** ** When the heading occurs, the selector cuts a chapter out *)

















(** ** Uploads: the text and the chapters a run stores *)

Section UploadProperties.

Variable stopwords_english : list str.
Variable generate_text : str -> outcome str.
Variable PdfReader_pages : str -> outcome (list (option str)).
Variable DOCXParser_extract_text : str -> outcome str.

Local Abbreviation parse := (parse_upload PdfReader_pages DOCXParser_extract_text).
Local Abbreviation run_main :=
  (main stopwords_english generate_text PdfReader_pages DOCXParser_extract_text).

Lemma pages_fold (pages : list (option str)) : forall text,
  fold_left (fun text page => text ++ default [] page) pages text
  = text ++ concat (map (default []) pages).
Proof.
  induction pages as [|p pages IH]; intros text; cbn [fold_left map concat].
  - by rewrite app_nil_r.
  - by rewrite IH, <- app_assoc.
Qed.

Lemma truncate_take (t : str) :
  (if (MAX_CHARS <? length t)%nat then take MAX_CHARS t else t)
  = take MAX_CHARS t.
Proof.
  destruct (MAX_CHARS <? length t)%nat eqn:E; [done|].
  apply Nat.ltb_ge in E. by rewrite take_ge.
Qed.

(** X13. A PDF upload stores the first 12000 characters of the texts of its
    pages, concatenated in order, a page without text counting as
    empty. *)
Theorem pdf_upload_text w s f (pages : list (option str)) :
  uploaded_file w = Some f ->
  endswith (py ".pdf") (str_lower (file_name f)) = true ->
  PdfReader_pages (file_bytes f) = Ok pages ->
  extracted_text (main stopwords_english generate_text PdfReader_pages
     DOCXParser_extract_text w s)
  = Some (take MAX_CHARS (concat (map (default []) pages))).
Proof.
  intros Hu Hn Hp.
  rewrite (main_text stopwords_english generate_text). cbv zeta.
  rewrite Hu, handle_upload_text. unfold parse_upload. rewrite Hn.
  unfold PDFParser_extract_text. rewrite Hp. cbn [bind].
  by rewrite pages_fold, truncate_take.
Qed.


(** X15. A reachable session that holds no text is the initial session:
    nothing is generated, chatted or detected before a document is
    stored, and only a reset removes the text. *)
Theorem no_text_is_initial s :
  reachable stopwords_english generate_text PdfReader_pages
    DOCXParser_extract_text s ->
  extracted_text s = None -> s = initial_session.
Proof.
  induction 1 as [|w s Hr IH]; [done|]. intros Hnone.
  pose proof Hnone as Htext.
  rewrite (main_text stopwords_english generate_text) in Htext. cbv zeta in Htext.
  unfold main in *. cbv zeta in *.
  set (s0 := if reset_clicked w then initial_session else s) in *.
  assert (extracted_text s0 = None -> s0 = initial_session) as H0.
  { subst s0. destruct (reset_clicked w); [done|exact IH]. }
  destruct (uploaded_file w) as [f|].
  - rewrite handle_upload_text in Htext. unfold handle_upload in *.
    destruct (parse_upload _ _ f) as [[t|e]|]; [done|by apply H0..].
  - rewrite Htext. by apply H0.
Qed.

End UploadProperties.

Lemma pdf_upload_text_witness :
  extracted_text (main [] Ok three_pages Ok upload_three_pages reading_session)
  = Some (take MAX_CHARS
            (concat (map (default []) [Some (py "Chapter 1: A"); None;
                                        Some (py " and more")]))).
Proof.
  apply (pdf_upload_text [] Ok three_pages Ok upload_three_pages
           reading_session long_upload); reflexivity.
Defined.

Lemma no_text_is_initial_witness :
  main [] Ok long_reader Ok reset_and_ask
    (main [] Ok long_reader Ok upload_only initial_session)
  = initial_session.
Proof.
  apply (no_text_is_initial [] Ok long_reader Ok).
  - apply reach_step. apply reach_step. apply reach_init.
  - vm_compute. reflexivity.
Defined.

(** ** The size of a prompt *)

Lemma bounded_sum (a m : nat) (b c : nat) :
  (m <= b)%nat -> (a + b <=? c)%nat = true -> (a + m <= c)%nat.
Proof. intros Hm Hb%Nat.leb_le. lia. Qed.

(** X16. A Generate task never hands the generator more than 3063 characters,
    and the chat never more than 3173 characters plus the question. *)
Theorem prompt_length_bounded (stopwords_english : list str) (t : task)
    (context user_input text : str) (chapters : gmap N str)
    (content_type : str) (selected_chapter : option N) :
  match t with
  | ExtractKeywords => True
  | _ =>
      exists prompt,
        generate stopwords_english Ok t context = Ok prompt
        /\ (length prompt <= 3063)%nat
  end
  /\ exists prompt,
       chatbot_response Ok user_input text chapters content_type selected_chapter
       = Ok prompt
       /\ (length prompt <= 3173 + length user_input)%nat.
Proof.
  split.
  - destruct t; [| | | |done]; eexists; (split; [reflexivity|]);
      rewrite !length_app, length_take;
      cbn [length py list_ascii_of_string];
      (eapply (bounded_sum _ _ (2 + 3000));
       [apply Nat.add_le_mono_l, Nat.le_min_l|vm_compute; reflexivity]).
  - destruct (chat_context_total text chapters content_type selected_chapter)
      as [c Hc].
    unfold chatbot_response. rewrite Hc. cbn [bind]. eexists. split; [reflexivity|].
    unfold chat_prompt. rewrite !length_app, length_take.
    cbn [length py list_ascii_of_string].
    pose proof (Nat.le_min_l 3000 (length c)) as Hmin.
    set (m := Nat.min 3000 (length c)) in *.
    set (u := length user_input).
    assert (forall a b : nat, (m <= b)%nat ->
              (74 + (2 + (b + (2 + (15 + (0 + (2 + 78)))))) <=? a)%nat = true ->
              (74 + (2 + (m + (2 + (15 + (u + (2 + 78)))))) <= a + u)%nat) as Hb
      by (intros a b Hm Hab%Nat.leb_le; lia).
    apply (Hb _ 3000%nat); [done|vm_compute; reflexivity].
Qed.
